(** * PDFDailyDigestBot: reading cursor, paragraph segmentation and document store

    A shallow embedding of [PDFDailyDigestBot.py]: the [Document] model with
    its methods [get_next_paragraph] and [get_progress_percentage], the
    helpers working on the database session ([get_or_create_user],
    [save_document], [get_active_document], [get_user_documents],
    [activate_document]) and the handlers [next_paragraph_command],
    [handle_switch_callback] and [handle_document_upload], reduced to their
    effect on the database and to the data they put in the reply.

    Python integers are [Z].  A Python [str] is a list of Unicode code
    points.  A Python [float] is a binary64 number of [SpecFloat].  A table
    of the database is the list of its rows in rowid order, and a handler
    is one transition from a database to the next. *)

From Stdlib Require Import String Ascii.
From Stdlib Require Import ZArith NArith List Bool Lia.
From Stdlib Require Import Floats.SpecFloat.
Import ListNotations.

Local Open Scope Z_scope.

(** ** Python strings *)

Module PyStr.

(** A character is its code point. *)
Definition char := N.
Definition str := list char.

Definition of_string (s : string) : str :=
  map N_of_ascii (list_ascii_of_string s).

(** [len(s)] *)
Definition len (s : str) : Z := Z.of_nat (length s).

(** How a slice bound is read against a sequence of length [n]: a negative
    bound counts from the end, and every bound is clamped to [0..n]. *)
Definition slice_index (n i : Z) : Z :=
  if i <? 0 then Z.max 0 (i + n) else Z.min i n.

(** [s[a:b]] *)
Definition slice (s : str) (a b : Z) : str :=
  let a' := slice_index (len s) a in
  let b' := slice_index (len s) b in
  firstn (Z.to_nat (b' - a')) (skipn (Z.to_nat a') s).

(** [s[a:]] *)
Definition slice_from (s : str) (a : Z) : str := slice s a (len s).

(** [s[i]]; [None] stands for [IndexError]. *)
Definition get (s : str) (i : Z) : option char :=
  let j := if i <? 0 then i + len s else i in
  if j <? 0 then None else nth_error s (Z.to_nat j).

(** [s.rfind(c)] for a one-character [c], on the suffix [s] of a string
    whose first character has index [i]. *)
Fixpoint rfind_from (s : str) (c : char) (i : Z) : Z :=
  match s with
  | [] => -1
  | x :: t =>
      let r := rfind_from t c (i + 1) in
      if 0 <=? r then r else if (x =? c)%N then i else -1
  end.

Definition rfind (s : str) (c : char) : Z := rfind_from s c 0.

(** [c.isspace()]: the code points that [str.strip()] removes. *)
Definition isspace (c : char) : bool :=
  ((9 <=? c) && (c <=? 13) || (28 <=? c) && (c <=? 32) ||
   (c =? 133) || (c =? 160) || (c =? 5760) ||
   (8192 <=? c) && (c <=? 8202) || (c =? 8232) || (c =? 8233) ||
   (c =? 8239) || (c =? 8287) || (c =? 12288))%N.

Fixpoint lstrip (s : str) : str :=
  match s with
  | [] => []
  | c :: t => if isspace c then lstrip t else s
  end.

Definition rstrip (s : str) : str := rev (lstrip (rev s)).

(** [s.strip()] *)
Definition strip (s : str) : str := rstrip (lstrip s).

(** [s == t] *)
Fixpoint eqb (s t : str) : bool :=
  match s, t with
  | [], [] => true
  | x :: s', y :: t' => (x =? y)%N && eqb s' t'
  | _, _ => false
  end.

(** [s.endswith(suffix)] *)
Definition endswith (s suffix : str) : bool :=
  (len suffix <=? len s) &&
  eqb (skipn (Z.to_nat (len s - len suffix)) s) suffix.

Definition space : char := 32%N.
Definition newline : char := 10%N.
Definition full_stop : char := 46%N.
Definition exclamation : char := 33%N.
Definition question : char := 63%N.

End PyStr.

Import PyStr.

(** ** Python floats

    A [float] is an IEEE 754 binary64 number, computed with the operations
    of [SpecFloat].  An exception is [None]. *)

Module PyFloat.

Definition prec : Z := 53.
Definition emax : Z := 1024.

Definition float := spec_float.

(** [float(n)], rounded to nearest even. *)
Definition of_int (n : Z) : float := binary_normalize prec emax n 0 false.

(** The integer [n] as the unrounded mantissa [n] with exponent 0. *)
Definition exact (n : Z) : float :=
  match n with
  | Z0 => S754_zero false
  | Zpos p => S754_finite false p 0
  | Zneg p => S754_finite true p 0
  end.

(** [a / b] on two [int]s: the quotient of the two integers rounded once
    to nearest even; [ZeroDivisionError] when [b] is 0 and [OverflowError]
    when the quotient is too large for a float. *)
Definition int_truediv (a b : Z) : option float :=
  if b =? 0 then None
  else match SFdiv prec emax (exact a) (exact b) with
       | S754_infinity _ => None
       | q => Some q
       end.

(** [x * n] for a float [x] and an int [n] that converts to a finite float. *)
Definition mul_int (x : float) (n : Z) : float := SFmul prec emax x (of_int n).

(** [int(x)]: truncation towards zero; [OverflowError] on an infinity and
    [ValueError] on a NaN. *)
Definition to_int (x : float) : option Z :=
  match x with
  | S754_zero _ => Some 0
  | S754_finite s m e =>
      Some (cond_Zopp s (match e with
                         | Zneg k => Zpos m / 2 ^ Zpos k
                         | _ => Zpos m * 2 ^ e
                         end))
  | S754_infinity _ | S754_nan => None
  end.

End PyFloat.

(** ** The models *)

Module User.

Record t := mk {
  id : Z;
  telegram_id : str;
  username : option str;
  first_name : option str;
  last_name : option str;
  created_at : Z
}.

End User.

Module Document.

Record t := mk {
  id : Z;
  user_id : Z;
  filename : str;
  content : str;
  current_position : Z;
  created_at : Z;
  active : bool
}.

(** [self.current_position = p] *)
Definition set_current_position (self : t) (p : Z) : t :=
  mk (id self) (user_id self) (filename self) (content self) p
     (created_at self) (active self).

(** [self.active = a] *)
Definition set_active (self : t) (a : bool) : t :=
  mk (id self) (user_id self) (filename self) (content self)
     (current_position self) (created_at self) a.

(** The defaults in the signature of [get_next_paragraph]. *)
Definition default_min_length : Z := 100.
Definition default_max_length : Z := 500.

Definition end_of_document : str := of_string "Fin del documento.".

(** [char in ['.', '!', '?']] *)
Definition is_sentence_mark (c : char) : bool :=
  ((c =? full_stop) || (c =? exclamation) || (c =? question))%N.

(** [i + 1 < len(remaining_content) and (remaining_content[i+1] == ' ' or
    remaining_content[i+1] == '\n')] *)
Definition followed_by_break (remaining_content : str) (i : Z) : bool :=
  (i + 1 <? len remaining_content) &&
  match get remaining_content (i + 1) with
  | Some c => ((c =? space) || (c =? newline))%N
  | None => false
  end.

(** The body of [if current_length >= max_length]: the cut at the last
    space of [remaining_content[max(0, i-100):i+1]], or after index [i]
    when that part has no space. *)
Definition hard_cap_end (position : Z) (remaining_content : str) (i : Z) : Z :=
  let last_part := slice remaining_content (Z.max 0 (i - 100)) (i + 1) in
  let last_space := rfind last_part space in
  if negb (last_space =? -1)
  then position + i - (len last_part - last_space) + 1
  else position + i + 1.

(** The loop [for i, char in enumerate(remaining_content)].  [todo] is what
    is left to enumerate, [i] the index of its first character and
    [current_length] the counter before the iteration.  [Some e]: the loop
    was left through [break] with [paragraph_end = e] and [found_end] set;
    [None]: the loop ran to its end with [found_end] false. *)
Fixpoint scan (position min_length max_length : Z)
    (remaining_content todo : str) (i current_length : Z) : option Z :=
  match todo with
  | [] => None
  | char :: todo' =>
      let current_length := current_length + 1 in
      if is_sentence_mark char && followed_by_break remaining_content i
         && (min_length <=? current_length)
      then Some (position + i + 1)
      else if max_length <=? current_length
      then Some (hard_cap_end position remaining_content i)
      else scan position min_length max_length remaining_content todo'
                (i + 1) current_length
  end.

(** [remaining_content = self.content[self.current_position:]] *)
Definition remaining_content (self : t) : str :=
  slice_from (content self) (current_position self).

(** [paragraph_end] after the loop and after [if not found_end]. *)
Definition paragraph_end_of (self : t) (min_length max_length : Z) : Z :=
  let remaining_content := remaining_content self in
  match scan (current_position self) min_length max_length
             remaining_content remaining_content 0 0 with
  | Some e => e
  | None => len (content self)
  end.

(** [Document.get_next_paragraph]: the returned pair [(paragraph, is_final)]
    and the object after the call. *)
Definition get_next_paragraph (self : t) (min_length max_length : Z)
  : (str * bool) * t :=
  if len (content self) <=? current_position self
  then ((end_of_document, true), self)
  else
    let paragraph_end := paragraph_end_of self min_length max_length in
    let paragraph :=
      strip (slice (content self) (current_position self) paragraph_end) in
    let self' := set_current_position self paragraph_end in
    let is_final := len (content self) <=? current_position self' in
    ((paragraph, is_final), self').

(** [Document.get_progress_percentage]; [None] is an exception of the
    float arithmetic. *)
Definition get_progress_percentage (self : t) : option Z :=
  match content self with
  | [] => Some 0
  | _ :: _ =>
      match PyFloat.int_truediv (current_position self) (len (content self)) with
      | None => None
      | Some q =>
          match PyFloat.to_int (PyFloat.mul_int q 100) with
          | None => None
          | Some n => Some (Z.min 100 n)
          end
      end
  end.

End Document.

(** ** The database *)

Record Database := mkDatabase {
  users : list User.t;
  documents : list Document.t
}.

(** The largest key of a table of SQLite, [2^63 - 1]. *)
Definition largest_rowid : Z := 9223372036854775807.

(** The primary key given to a new row.  The models leave [id] unset, and
    the column is an [INTEGER PRIMARY KEY] of SQLite: the row gets 1 in an
    empty table and one more than the largest key of the table otherwise.
    (In a table that holds [largest_rowid] SQLite picks an unused key at
    random instead; [rowids_left] excludes such tables.) *)
Definition next_id (ids : list Z) : Z :=
  match ids with
  | [] => 1
  | id :: ids' => 1 + fold_right Z.max id ids'
  end.

(** The keys of a table in which SQLite still numbers a new row by
    [next_id]. *)
Definition rowids_left (ids : list Z) : Prop :=
  forall id, In id ids -> id < largest_rowid.

(** [user.documents] *)
Definition owned_by (user : User.t) (doc : Document.t) : bool :=
  Document.user_id doc =? User.id user.

(** The row of a loaded object written back at commit. *)
Definition update_document (db : Database) (doc : Document.t) : Database :=
  mkDatabase (users db)
    (map (fun d => if Document.id d =? Document.id doc then doc else d)
         (documents db)).

Definition get_or_create_user (db : Database) (telegram_id : str)
    (username first_name last_name : option str) (now : Z)
  : User.t * Database :=
  match find (fun u => eqb (User.telegram_id u) telegram_id) (users db) with
  | Some user => (user, db)
  | None =>
      let user := User.mk (next_id (map User.id (users db))) telegram_id
                          username first_name last_name now in
      (user, mkDatabase (users db ++ [user]) (documents db))
  end.

Definition save_document (db : Database) (user : User.t) (filename content : str)
    (now : Z) : Document.t * Database :=
  let deactivated :=
    map (fun doc => if owned_by user doc then Document.set_active doc false
                    else doc) (documents db) in
  let document :=
    Document.mk (next_id (map Document.id (documents db))) (User.id user)
                filename content 0 now true in
  (document, mkDatabase (users db) (deactivated ++ [document])).

Definition get_active_document (db : Database) (user : User.t)
  : option Document.t :=
  find (fun d => owned_by user d && Document.active d) (documents db).

Definition get_user_documents (db : Database) (user : User.t)
  : list Document.t :=
  filter (owned_by user) (documents db).

(** [None] is the [None] the function returns when the query finds no row. *)
Definition activate_document (db : Database) (document_id : Z) (user : User.t)
  : option Document.t * Database :=
  match find (fun d => (Document.id d =? document_id) && owned_by user d)
             (documents db) with
  | None => (None, db)
  | Some document =>
      (Some (Document.set_active document true),
       mkDatabase (users db)
         (map (fun doc =>
                 if owned_by user doc
                 then Document.set_active doc (Document.id doc =? document_id)
                 else doc) (documents db)))
  end.

(** [handle_switch_callback] for the user [telegram_id] and the document
    named in the callback data. *)
Definition handle_switch_callback (db : Database) (telegram_id : str)
    (document_id : Z) (now : Z) : option Document.t * Database :=
  let '(db_user, db) := get_or_create_user db telegram_id None None None now in
  activate_document db document_id db_user.

(** What [next_paragraph_command] and [send_daily_paragraph] put in the
    message: the paragraph, the percentage printed after [Progreso:] (the
    literal 100 in the message of a final paragraph, [progress] otherwise)
    and the file name. *)
Record FragmentView := mkFragmentView {
  fragment : str;
  progress : Z;
  shown_progress : Z;
  view_filename : str;
  is_final : bool
}.

Inductive Reply :=
| NoActiveDocument
| Fragment (view : FragmentView)
| Raised.

(** [next_paragraph_command] for the user [telegram_id]. *)
Definition next_paragraph_command (db : Database) (telegram_id : str) (now : Z)
  : Reply * Database :=
  let '(db_user, db) := get_or_create_user db telegram_id None None None now in
  match get_active_document db db_user with
  | None => (NoActiveDocument, db)
  | Some active_doc =>
      let '((paragraph, is_final), active_doc) :=
        Document.get_next_paragraph active_doc Document.default_min_length
                                    Document.default_max_length in
      let db := update_document db active_doc in
      match Document.get_progress_percentage active_doc with
      | None => (Raised, db)
      | Some progress =>
          (Fragment (mkFragmentView paragraph progress
                       (if is_final then 100 else progress)
                       (Document.filename active_doc) is_final), db)
      end
  end.

Inductive UploadReply :=
| UnsupportedFormat
| EmptyExtraction
| Saved (document : Document.t).

Section Ingestion.

(** Collaborators outside the repository: [str.lower] and the two
    extractors, which turn the bytes of a file into its text. *)
Variable lower : str -> str.
Variable extract_text_from_pdf : list Byte.byte -> str.
Variable extract_text_from_epub : list Byte.byte -> str.

Definition extract_text_from_document (file_data : list Byte.byte)
    (filename : str) : str :=
  let filename_lower := lower filename in
  if endswith filename_lower (of_string ".pdf")
  then extract_text_from_pdf file_data
  else if endswith filename_lower (of_string ".epub")
  then extract_text_from_epub file_data
  else [].

(** [handle_document_upload] for the file [file_name] with bytes
    [file_data], sent by the user [telegram_id]. *)
Definition handle_document_upload (db : Database) (telegram_id : str)
    (file_name : str) (file_data : list Byte.byte) (now : Z)
  : UploadReply * Database :=
  let filename_lower := lower file_name in
  let is_pdf := endswith filename_lower (of_string ".pdf") in
  let is_epub := endswith filename_lower (of_string ".epub") in
  if negb (is_pdf || is_epub) then (UnsupportedFormat, db)
  else
    let text := extract_text_from_document file_data file_name in
    if match text with [] => true | _ => false end || (len (strip text) <? 10)
    then (EmptyExtraction, db)
    else
      let '(db_user, db) := get_or_create_user db telegram_id None None None now in
      let '(document, db) := save_document db db_user file_name text now in
      (Saved document, db).

End Ingestion.

(** ** Properties of a database and of a reading *)

(** The primary key of the [document] table. *)
Definition primary_key (db : Database) : Prop :=
  NoDup (map Document.id (documents db)).

(** The active documents of the user with key [u]. *)
Definition active_documents (db : Database) (u : Z) : list Document.t :=
  filter (fun d => (Document.user_id d =? u) && Document.active d) (documents db).

Definition at_most_one_active (db : Database) : Prop :=
  forall u, (length (active_documents db u) <= 1)%nat.

(** Successive calls of [get_next_paragraph] up to the first one that
    returns [is_final]; each call is recorded as the position before it, the
    paragraph it returned and the position after it. *)
Fixpoint read_through (fuel : nat) (self : Document.t) (min_length max_length : Z)
  : option (list (Z * str * Z)) :=
  match fuel with
  | O => None
  | S fuel' =>
      let '((paragraph, is_final), self') :=
        Document.get_next_paragraph self min_length max_length in
      let call := (Document.current_position self, paragraph,
                   Document.current_position self') in
      if is_final then Some [call]
      else match read_through fuel' self' min_length max_length with
           | Some calls => Some (call :: calls)
           | None => None
           end
  end.


(** [n] repetitions of a character. *)
Definition repeat_char (c : char) (n : nat) : str := repeat c n.

Definition doc_of (text : str) (offset : Z) : Document.t :=
  Document.mk 1 1 (of_string "book.pdf") text offset 0 true.

(** The test of the first [if] of the loop at index [i]: a sentence mark
    followed by a space or a newline, at least [min_length] characters in. *)
Definition natural_boundary (remaining_content : str) (min_length i : Z) : bool :=
  match get remaining_content i with
  | Some char =>
      Document.is_sentence_mark char
      && Document.followed_by_break remaining_content i
      && (min_length <=? i + 1)
  | None => false
  end.


(** A call whose scan gets as far as the iteration in which
    [current_length == max_length]: the text left has that many characters
    and no earlier iteration leaves the loop. *)
Definition reaches_max_length (self : Document.t) (min_length max_length : Z)
  : Prop :=
  let remaining_content := Document.remaining_content self in
  0 <= Document.current_position self /\
  1 <= max_length <= len remaining_content /\
  forall k, 0 <= k < max_length - 1 ->
            natural_boundary remaining_content min_length k = false.

(** The check of [reaches_max_length] on the indices below [n]. *)
Definition no_boundary_below (remaining_content : str) (min_length : Z) (n : nat)
  : bool :=
  forallb (fun k => negb (natural_boundary remaining_content min_length
                                           (Z.of_nat k)))
          (seq 0 n).

(** A position the cursor of a document may have. *)
Definition valid_position (self : Document.t) : Prop :=
  0 <= Document.current_position self <= len (Document.content self).

(** The paragraph of a call before [.strip()]. *)
Definition raw_paragraph (self : Document.t) (min_length max_length : Z) : str :=
  slice (Document.content self) (Document.current_position self)
        (Document.paragraph_end_of self min_length max_length).

(** The position after a call of [get_next_paragraph]. *)
Definition new_position (self : Document.t) (min_length max_length : Z) : Z :=
  Document.current_position
    (snd (Document.get_next_paragraph self min_length max_length)).




(** ** Example documents *)

Definition a : char := 97%N.

Definition scenario_A : Document.t :=
  doc_of (of_string "Hello world. This is a test of segmentation. Goodbye!") 0.

(** 600 characters [a]. *)
Definition scenario_B : Document.t := doc_of (repeat_char a 600) 0.

(** A sentence mark followed by a space in the very iteration that reaches
    a maximum length of 5, after a space two characters in. *)
Definition mark_at_the_cap : Document.t := doc_of (of_string "ab c. de") 0.

(** A space 101 characters before the end of the first 500, and no other. *)
Definition space_at_399 : Document.t :=
  doc_of (repeat_char a 399 ++ [space] ++ repeat_char a 200) 0.

(** A text that begins with its only space. *)
Definition leading_space : Document.t := doc_of (of_string " aaaaaaaa") 0.

Definition two_letters : Document.t := doc_of (of_string "ab") 0.

(** 1000 characters whose first sentence ends after 290 of them. *)
Definition first_sentence_290 : Document.t :=
  doc_of (repeat_char a 289 ++ [full_stop; space] ++ repeat_char a 709) 0.


(** What of a row tells whose document it is and whether it is active. *)
Definition flags (d : Document.t) : Z * Z * bool :=
  (Document.id d, Document.user_id d, Document.active d).

(** A database with one user, who has an active document read up to 12. *)
Definition reader : User.t :=
  User.mk 1 (of_string "4711") None None None 0.

Definition one_reader : Database :=
  mkDatabase [reader]
    [Document.set_current_position scenario_A 12].

(** Stand-ins for the collaborators of an upload: a [lower] that leaves
    its argument as it is, and extractors that find five characters. *)
Definition lower_of_lowercase (s : str) : str := s.
Definition five_characters (file_data : list Byte.byte) : str := of_string "abcde".

(** Scenario A read to its end. *)
Definition finished : Document.t :=
  Document.set_current_position scenario_A 53.

(** The reader with the 1000 characters of [first_sentence_290] as the
    active document. *)
Definition reader_at_start : Database :=
  mkDatabase [reader] [first_sentence_290].

(** ** Text extraction *)

(** [re.sub(r'\s+', ' ', text)]: every maximal run of whitespace becomes
    one space.  [in_run] tells that the character before was whitespace. *)
Fixpoint sub_whitespace (in_run : bool) (text : str) : str :=
  match text with
  | [] => []
  | c :: text' =>
      if isspace c
      then if in_run then sub_whitespace true text'
           else space :: sub_whitespace true text'
      else c :: sub_whitespace false text'
  end.

(** [chapter_to_text], from the [soup.get_text()] of the chapter. *)
Definition chapter_to_text (soup_text : str) : str :=
  let text := sub_whitespace false soup_text in
  strip text.

Section Extractors.

(** The libraries outside the repository.  [pdf_pages] is [PyPDF2]: the
    [page.extract_text()] of every page of the file.  [epub_documents] is
    [ebooklib] with [BeautifulSoup]: the [soup.get_text()] of every item of
    type [ITEM_DOCUMENT] of the book.  [None] is an exception. *)
Variable pdf_pages : list Byte.byte -> option (list str).
Variable epub_documents : list Byte.byte -> option (list str).

Definition extract_text_from_pdf (file_data : list Byte.byte) : str :=
  match pdf_pages file_data with
  | None => []
  | Some pages =>
      let text :=
        fold_left (fun text page => text ++ page ++ [newline]) pages [] in
      let text := sub_whitespace false text in
      strip text
  end.

Definition extract_text_from_epub (file_data : list Byte.byte) : str :=
  match epub_documents file_data with
  | None => []
  | Some chapters =>
      let all_text :=
        fold_left (fun all_text chapter =>
                     all_text ++ chapter_to_text chapter ++ [newline; newline])
                  chapters [] in
      strip all_text
  end.

End Extractors.

(** ** More handlers *)

(** [start]: the user is registered; the reply is a fixed message. *)
Definition start (db : Database) (telegram_id : str)
    (username first_name last_name : option str) (now : Z) : Database :=
  snd (get_or_create_user db telegram_id username first_name last_name now).

Inductive StatusReply :=
| StatusNoActiveDocument
| Status (filename : str) (progress : Z) (created_at : Z)
| StatusRaised.

(** [status_command] for the user [telegram_id]. *)
Definition status_command (db : Database) (telegram_id : str) (now : Z)
  : StatusReply * Database :=
  let '(db_user, db) := get_or_create_user db telegram_id None None None now in
  match get_active_document db db_user with
  | None => (StatusNoActiveDocument, db)
  | Some active_doc =>
      match Document.get_progress_percentage active_doc with
      | None => (StatusRaised, db)
      | Some progress =>
          (Status (Document.filename active_doc) progress
                  (Document.created_at active_doc), db)
      end
  end.

(** A button of the keyboard of [switch_document_command]: whether its
    text begins with the mark of the active document, the file name and the
    percentage in the text, and the key in [callback_data]. *)
Record Button := mkButton {
  marked : bool;
  button_filename : str;
  button_progress : Z;
  switch_to : Z
}.

Inductive SwitchReply :=
| NoDocuments
| Keyboard (buttons : list Button)
| SwitchRaised.

(** The [for doc in documents] loop that fills [keyboard]; [None] when
    [get_progress_percentage] raises. *)
Fixpoint keyboard_of (docs : list Document.t) : option (list Button) :=
  match docs with
  | [] => Some []
  | doc :: docs' =>
      match Document.get_progress_percentage doc with
      | None => None
      | Some progress =>
          match keyboard_of docs' with
          | None => None
          | Some keyboard =>
              Some (mkButton (Document.active doc) (Document.filename doc)
                             progress (Document.id doc) :: keyboard)
          end
      end
  end.

(** [switch_document_command] for the user [telegram_id]. *)
Definition switch_document_command (db : Database) (telegram_id : str) (now : Z)
  : SwitchReply * Database :=
  let '(db_user, db) := get_or_create_user db telegram_id None None None now in
  match get_user_documents db db_user with
  | [] => (NoDocuments, db)
  | documents =>
      match keyboard_of documents with
      | None => (SwitchRaised, db)
      | Some keyboard => (Keyboard keyboard, db)
      end
  end.

(** One turn of the [for user in users] loop of [send_daily_paragraph]:
    [sent] are the messages handed to [send_message] so far, each with the
    chat it goes to.  An exception in the turn is caught and logged, after
    the commit of the new position. *)
Definition daily_turn (state : list (str * FragmentView) * Database)
    (user : User.t) : list (str * FragmentView) * Database :=
  let '(sent, db) := state in
  match get_active_document db user with
  | None => (sent, db)
  | Some active_doc =>
      let '((paragraph, is_final), active_doc) :=
        Document.get_next_paragraph active_doc Document.default_min_length
                                    Document.default_max_length in
      let db := update_document db active_doc in
      match Document.get_progress_percentage active_doc with
      | None => (sent, db)
      | Some progress =>
          (sent ++ [(User.telegram_id user,
                     mkFragmentView paragraph progress
                       (if is_final then 100 else progress)
                       (Document.filename active_doc) is_final)], db)
      end
  end.

(** [send_daily_paragraph]: the messages handed to [send_message] and the
    database after the job. *)
Definition send_daily_paragraph (db : Database)
  : list (str * FragmentView) * Database :=
  fold_left daily_turn (users db) ([], db).

(** ** More properties of a database *)

(** Every cursor is inside its text. *)
Definition valid_cursors (db : Database) : Prop :=
  forall d, In d (documents db) -> valid_position d.

(** The primary key of the [user] table and the unique [telegram_id]. *)
Definition users_key (db : Database) : Prop :=
  NoDup (map User.id (users db)).

Definition unique_telegram_id (db : Database) : Prop :=
  forall u v, In u (users db) -> In v (users db) ->
              User.telegram_id u = User.telegram_id v -> u = v.

(** The foreign key [document.user_id]. *)
Definition foreign_key (db : Database) : Prop :=
  forall d, In d (documents db) ->
            exists u, In u (users db) /\ Document.user_id d = User.id u.

(** What of a row is the reading: the document, its text and the cursor. *)
Definition reading (d : Document.t) : Z * str * Z :=
  (Document.id d, Document.content d, Document.current_position d).

(** A second reader, without a document. *)
Definition newcomer : User.t :=
  User.mk 2 (of_string "4712") None None None 3.

Definition two_readers : Database :=
  mkDatabase [reader; newcomer]
    [Document.set_current_position scenario_A 12].

(** The message a user is sent when his turn of the daily job is run on
    the database [db] alone. *)
Definition daily_message (db : Database) (user : User.t)
  : list (str * FragmentView) :=
  fst (daily_turn ([], db) user).

(** A document after one call with the default lengths. *)
Definition read_on (d : Document.t) : Document.t :=
  snd (Document.get_next_paragraph d Document.default_min_length
                                   Document.default_max_length).

(** A stand-in for [PyPDF2] on a scanned file: two pages without text. *)
Definition scanned_pages (file_data : list Byte.byte) : option (list str) :=
  Some [[]; [space; newline]].

(** A stand-in for the libraries on a file they cannot read. *)
Definition unreadable (file_data : list Byte.byte) : option (list str) := None.
(** ** Strings: slices, indexing and [rfind] *)

Section StrFacts.

Lemma len_nonneg (s : str) : 0 <= len s.
Proof. unfold len. lia. Qed.

Lemma slice_inner (s : str) (a b : Z) :
  0 <= a <= b -> b <= len s ->
  slice s a b = firstn (Z.to_nat (b - a)) (skipn (Z.to_nat a) s).
Proof.
  intros Ha Hb. unfold slice, slice_index.
  destruct (Z.ltb_spec a 0); [lia|].
  destruct (Z.ltb_spec b 0); [lia|].
  rewrite !Z.min_l by lia. reflexivity.
Qed.


Lemma len_slice (s : str) (a b : Z) :
  0 <= a <= b -> b <= len s -> len (slice s a b) = b - a.
Proof.
  intros Ha Hb. rewrite slice_inner by assumption.
  unfold len in *. rewrite length_firstn, length_skipn. lia.
Qed.

Lemma len_slice_from (s : str) (a : Z) :
  0 <= a <= len s -> len (slice_from s a) = len s - a.
Proof. intros Ha. unfold slice_from. apply len_slice; lia. Qed.

Lemma get_nth_error (s : str) (i : Z) :
  0 <= i -> get s i = nth_error s (Z.to_nat i).
Proof.
  intros Hi. unfold get.
  destruct (Z.ltb_spec i 0); [lia|].
  destruct (Z.ltb_spec i 0); [lia|reflexivity].
Qed.

Lemma get_slice (s : str) (a b k : Z) :
  0 <= a <= b -> b <= len s -> 0 <= k < b - a ->
  get (slice s a b) k = get s (a + k).
Proof.
  intros Ha Hb Hk. rewrite !get_nth_error by lia.
  rewrite slice_inner by assumption.
  rewrite nth_error_firstn.
  destruct (Nat.ltb_spec (Z.to_nat k) (Z.to_nat (b - a))); [|lia].
  rewrite nth_error_skipn. f_equal. lia.
Qed.

Lemma skipn_cons_inv (l : str) (n : nat) (x : char) (t : str) :
  skipn n l = x :: t -> nth_error l n = Some x /\ skipn (S n) l = t.
Proof.
  revert l. induction n as [|n IH]; intros [|y l] H; simpl in H; try discriminate.
  - inversion H; subst. auto.
  - apply IH in H. exact H.
Qed.

(** [rfind] returns -1 when the character does not occur, and otherwise
    the index of its last occurrence. *)
Lemma rfind_from_spec (c : char) (s : str) : forall i,
  0 <= i ->
  (rfind_from s c i = -1 /\
   forall k, 0 <= k < len s -> nth_error s (Z.to_nat k) <> Some c) \/
  (i <= rfind_from s c i < i + len s /\
   nth_error s (Z.to_nat (rfind_from s c i - i)) = Some c /\
   forall k, rfind_from s c i - i < k < len s ->
             nth_error s (Z.to_nat k) <> Some c).
Proof.
  induction s as [|x t IH]; intros i Hi.
  - left. split; [reflexivity|]. unfold len; simpl. intros k Hk. lia.
  - cbn [rfind_from]. specialize (IH (i + 1) ltac:(lia)).
    assert (Hlen : len (x :: t) = len t + 1) by (unfold len; simpl length; lia).
    pose proof (len_nonneg t) as Hnn.
    destruct IH as [[Hr Hno]|(Hr & Hat & Hafter)].
    + rewrite Hr. change (0 <=? -1) with false. cbv iota.
      destruct (N.eqb_spec x c) as [->|Hxc].
      * right. split; [lia|]. split.
        { replace (i - i) with 0 by lia. reflexivity. }
        intros k Hk. replace (Z.to_nat k) with (S (Z.to_nat (k - 1))) by lia.
        simpl. apply Hno. lia.
      * left. split; [reflexivity|]. intros k Hk.
        destruct (Z.eq_dec k 0) as [->|Hk0].
        { simpl. congruence. }
        replace (Z.to_nat k) with (S (Z.to_nat (k - 1))) by lia.
        simpl. apply Hno. lia.
    + destruct (Z.leb_spec 0 (rfind_from t c (i + 1))); [|lia].
      right. split; [lia|]. split.
      * replace (Z.to_nat (rfind_from t c (i + 1) - i))
          with (S (Z.to_nat (rfind_from t c (i + 1) - (i + 1)))) by lia.
        simpl. exact Hat.
      * intros k Hk. replace (Z.to_nat k) with (S (Z.to_nat (k - 1))) by lia.
        simpl. apply Hafter. lia.
Qed.

Lemma rfind_spec (c : char) (s : str) :
  (rfind s c = -1 /\
   forall k, 0 <= k < len s -> get s k <> Some c) \/
  (0 <= rfind s c < len s /\ get s (rfind s c) = Some c /\
   forall k, rfind s c < k < len s -> get s k <> Some c).
Proof.
  unfold rfind. destruct (rfind_from_spec c s 0 ltac:(lia)) as [[H1 H2]|(H1 & H2 & H3)].
  - left. split; [assumption|]. intros k Hk. rewrite get_nth_error by lia. auto.
  - right. rewrite Z.sub_0_r in *. split; [lia|]. split.
    + rewrite get_nth_error by lia. assumption.
    + intros k Hk. rewrite get_nth_error by lia. apply H3. lia.
Qed.

End StrFacts.

(** ** The scan of [get_next_paragraph] *)

Section ScanFacts.

Variables (position min_length max_length : Z) (remaining_content : str).

(** The cut at the maximum length: without a space in the part
    [remaining_content[max(0, j-100):j+1]] it falls after index [j];
    otherwise it falls on the last space of that part. *)
Lemma hard_cap_end_spec (j : Z) :
  0 <= j < len remaining_content ->
  ((forall k, Z.max 0 (j - 100) <= k <= j ->
              get remaining_content k <> Some space) /\
   Document.hard_cap_end position remaining_content j = position + j + 1) \/
  (exists k, Z.max 0 (j - 100) <= k <= j /\
             get remaining_content k = Some space /\
             (forall k', k < k' <= j -> get remaining_content k' <> Some space) /\
             Document.hard_cap_end position remaining_content j = position + k).
Proof.
  intros Hj. unfold Document.hard_cap_end.
  set (lo := Z.max 0 (j - 100)).
  assert (Hlo : 0 <= lo <= j + 1) by (unfold lo; lia).
  assert (Hlen : len (slice remaining_content lo (j + 1)) = j + 1 - lo)
    by (apply len_slice; lia).
  destruct (rfind_spec space (slice remaining_content lo (j + 1)))
    as [[Hr Hno]|(Hr & Hat & Hafter)].
  - left. rewrite Hr. split; [|reflexivity].
    intros k Hk. specialize (Hno (k - lo) ltac:(lia)).
    rewrite get_slice in Hno by lia.
    replace (lo + (k - lo)) with k in Hno by lia. exact Hno.
  - right. set (r := rfind (slice remaining_content lo (j + 1)) space) in *.
    exists (lo + r). split; [lia|]. split.
    + rewrite get_slice in Hat by lia. exact Hat.
    + split.
      * intros k' Hk'. specialize (Hafter (k' - lo) ltac:(lia)).
        rewrite get_slice in Hafter by lia.
        replace (lo + (k' - lo)) with k' in Hafter by lia. exact Hafter.
      * destruct (Z.eqb_spec r (-1)); [lia|]. cbn [negb]. rewrite Hlen. lia.
Qed.

Lemma hard_cap_end_bounds (j : Z) :
  0 <= j < len remaining_content ->
  position + Z.max 0 (j - 100)
    <= Document.hard_cap_end position remaining_content j
    <= position + j + 1.
Proof.
  intros Hj.
  destruct (hard_cap_end_spec j Hj) as [[_ ->]|(k & Hk & _ & _ & ->)]; lia.
Qed.

Lemma scan_step (char : char) (todo : str) (i : Z) :
  0 <= i ->
  skipn (Z.to_nat i) remaining_content = char :: todo ->
  Document.scan position min_length max_length remaining_content
                (char :: todo) i i =
  if natural_boundary remaining_content min_length i
  then Some (position + i + 1)
  else if max_length <=? i + 1
  then Some (Document.hard_cap_end position remaining_content i)
  else Document.scan position min_length max_length remaining_content todo
                     (i + 1) (i + 1).
Proof.
  intros Hi Hskip. apply skipn_cons_inv in Hskip as [Hnth _].
  cbn [Document.scan]. unfold natural_boundary.
  rewrite get_nth_error by assumption. rewrite Hnth. reflexivity.
Qed.

(** When the loop is left through [break], it is at the first index [j]
    that is a natural boundary or reaches the maximum length. *)
Lemma scan_Some (todo : str) : forall i e,
  0 <= i ->
  skipn (Z.to_nat i) remaining_content = todo ->
  Document.scan position min_length max_length remaining_content todo i i
    = Some e ->
  exists j, i <= j < len remaining_content /\
    (forall k, i <= k < j ->
       natural_boundary remaining_content min_length k = false /\ k + 1 < max_length) /\
    ((natural_boundary remaining_content min_length j = true /\
      e = position + j + 1) \/
     (natural_boundary remaining_content min_length j = false /\
      max_length <= j + 1 /\
      e = Document.hard_cap_end position remaining_content j)).
Proof.
  induction todo as [|char todo IH]; intros i e Hi Hskip Hscan.
  - discriminate.
  - pose proof (skipn_cons_inv _ _ _ _ Hskip) as [Hnth Hskip'].
    assert (Hlt : i < len remaining_content).
    { assert (Hn : (Z.to_nat i < length remaining_content)%nat)
        by (apply nth_error_Some; congruence).
      unfold len; lia. }
    rewrite scan_step in Hscan by assumption.
    destruct (natural_boundary remaining_content min_length i) eqn:Hnat.
    + inversion Hscan; subst. exists i. split; [lia|]. split; [intros; lia|].
      left; auto.
    + destruct (Z.leb_spec max_length (i + 1)).
      * inversion Hscan; subst. exists i. split; [lia|]. split; [intros; lia|].
        right; auto.
      * apply IH in Hscan; [|lia|].
        2:{ replace (Z.to_nat (i + 1)) with (S (Z.to_nat i)) by lia. exact Hskip'. }
        destruct Hscan as (j & Hj & Hbefore & Hat).
        exists j. split; [lia|]. split; [|exact Hat].
        intros k Hk. destruct (Z.eq_dec k i) as [->|Hne].
        -- split; [assumption|lia].
        -- apply Hbefore. lia.
Qed.

(** When the loop runs to its end, no index was a natural boundary and
    the maximum length was not reached. *)
Lemma scan_None (todo : str) : forall i,
  0 <= i ->
  skipn (Z.to_nat i) remaining_content = todo ->
  Document.scan position min_length max_length remaining_content todo i i
    = None ->
  forall k, i <= k < len remaining_content ->
    natural_boundary remaining_content min_length k = false /\ k + 1 < max_length.
Proof.
  induction todo as [|char todo IH]; intros i Hi Hskip Hscan k Hk.
  - exfalso. assert (Hn : (length (skipn (Z.to_nat i) remaining_content) = 0)%nat)
      by (rewrite Hskip; reflexivity).
    rewrite length_skipn in Hn. unfold len in Hk. lia.
  - pose proof (skipn_cons_inv _ _ _ _ Hskip) as [Hnth Hskip'].
    rewrite scan_step in Hscan by assumption.
    destruct (natural_boundary remaining_content min_length i) eqn:Hnat;
      [discriminate|].
    destruct (Z.leb_spec max_length (i + 1)); [discriminate|].
    destruct (Z.eq_dec k i) as [->|Hne]; [split; [assumption|lia]|].
    apply (IH (i + 1)); try lia; try assumption.
    replace (Z.to_nat (i + 1)) with (S (Z.to_nat i)) by lia. exact Hskip'.
Qed.

End ScanFacts.

(** ** The cut of one call *)

Section ParagraphEnd.

Variables (self : Document.t) (min_length max_length : Z).

Hypothesis Hpos :
  0 <= Document.current_position self < len (Document.content self).

Lemma len_remaining :
  len (Document.remaining_content self)
    = len (Document.content self) - Document.current_position self.
Proof. apply len_slice_from. lia. Qed.

(** The three ways a call ends: the tail of the text, a natural boundary, or
    the maximum length. *)
Lemma paragraph_end_cases :
  (Document.paragraph_end_of self min_length max_length
     = len (Document.content self) /\
   forall k, 0 <= k < len (Document.remaining_content self) ->
     natural_boundary (Document.remaining_content self) min_length k = false /\
     k + 1 < max_length) \/
  (exists j, 0 <= j < len (Document.remaining_content self) /\
     (forall k, 0 <= k < j ->
        natural_boundary (Document.remaining_content self) min_length k = false /\
        k + 1 < max_length) /\
     ((natural_boundary (Document.remaining_content self) min_length j = true /\
       Document.paragraph_end_of self min_length max_length
         = Document.current_position self + j + 1) \/
      (natural_boundary (Document.remaining_content self) min_length j = false /\
       max_length <= j + 1 /\
       Document.paragraph_end_of self min_length max_length
         = Document.hard_cap_end (Document.current_position self)
             (Document.remaining_content self) j))).
Proof.
  unfold Document.paragraph_end_of.
  destruct (Document.scan (Document.current_position self) min_length
              max_length (Document.remaining_content self)
              (Document.remaining_content self) 0 0) as [e|] eqn:Hscan.
  - right. apply scan_Some in Hscan; [exact Hscan|lia|reflexivity].
  - left. split; [reflexivity|].
    eapply scan_None; [|reflexivity|exact Hscan]. lia.
Qed.

(** The cut never falls before the cursor nor after the end of the text. *)
Lemma paragraph_end_bounds :
  Document.current_position self
    <= Document.paragraph_end_of self min_length max_length
    <= len (Document.content self).
Proof.
  pose proof len_remaining as Hlen.
  destruct paragraph_end_cases as [[-> _]|(j & Hj & _ & [[_ ->]|(_ & _ & ->)])];
    try lia.
  pose proof (hard_cap_end_bounds (Document.current_position self)
                (Document.remaining_content self) j Hj). lia.
Qed.

(** With a maximum length above 101 the cut falls after the cursor. *)
Lemma paragraph_end_advances :
  101 < max_length ->
  Document.current_position self
    < Document.paragraph_end_of self min_length max_length.
Proof.
  intros Hmax.
  destruct paragraph_end_cases as [[-> _]|(j & Hj & _ & [[_ ->]|(_ & Hle & ->)])];
    try lia.
  pose proof (hard_cap_end_bounds (Document.current_position self)
                (Document.remaining_content self) j Hj). lia.
Qed.

(** With a maximum length of at least 1 the cut is at most [max_length]
    characters after the cursor. *)
Lemma paragraph_end_span :
  1 <= max_length ->
  Document.paragraph_end_of self min_length max_length
    - Document.current_position self <= max_length.
Proof.
  intros Hmax. pose proof len_remaining as Hlen.
  destruct paragraph_end_cases as [[-> Hall]|(j & Hj & Hbefore & Hat)].
  - specialize (Hall (len (Document.remaining_content self) - 1) ltac:(lia)). lia.
  - assert (Hjm : j + 1 <= max_length).
    { destruct (Z.eq_dec j 0) as [->|Hne]; [lia|].
      specialize (Hbefore (j - 1) ltac:(lia)). lia. }
    destruct Hat as [[_ ->]|(_ & _ & ->)]; [lia|].
    pose proof (hard_cap_end_bounds (Document.current_position self)
                  (Document.remaining_content self) j Hj). lia.
Qed.

End ParagraphEnd.

(** ** One call of [get_next_paragraph] *)

Lemma slice_from_past_end (s : str) (p : Z) : len s <= p -> slice_from s p = [].
Proof.
  intros Hp. pose proof (len_nonneg s) as Hn.
  unfold slice_from, slice, slice_index.
  destruct (Z.ltb_spec p 0); [lia|].
  destruct (Z.ltb_spec (len s) 0); [lia|].
  rewrite !Z.min_r by lia.
  replace (len s - len s) with 0 by lia. reflexivity.
Qed.

Lemma get_next_paragraph_terminal (self : Document.t) (min_length max_length : Z) :
  len (Document.content self) <= Document.current_position self ->
  Document.get_next_paragraph self min_length max_length
    = ((Document.end_of_document, true), self).
Proof.
  intros H. unfold Document.get_next_paragraph.
  destruct (Z.leb_spec (len (Document.content self))
                       (Document.current_position self)); [reflexivity|lia].
Qed.

Lemma get_next_paragraph_inner (self : Document.t) (min_length max_length : Z) :
  Document.current_position self < len (Document.content self) ->
  Document.get_next_paragraph self min_length max_length
    = ((strip (raw_paragraph self min_length max_length),
        len (Document.content self)
          <=? Document.paragraph_end_of self min_length max_length),
       Document.set_current_position self
         (Document.paragraph_end_of self min_length max_length)).
Proof.
  intros H. unfold Document.get_next_paragraph.
  destruct (Z.leb_spec (len (Document.content self))
                       (Document.current_position self)); [lia|reflexivity].
Qed.

Lemma new_position_terminal (self : Document.t) (min_length max_length : Z) :
  len (Document.content self) <= Document.current_position self ->
  new_position self min_length max_length = Document.current_position self.
Proof.
  intros H. unfold new_position.
  rewrite get_next_paragraph_terminal by assumption. reflexivity.
Qed.

Lemma new_position_inner (self : Document.t) (min_length max_length : Z) :
  Document.current_position self < len (Document.content self) ->
  new_position self min_length max_length
    = Document.paragraph_end_of self min_length max_length.
Proof.
  intros H. unfold new_position.
  rewrite get_next_paragraph_inner by assumption. reflexivity.
Qed.

(** A call changes the cursor and nothing else. *)
Lemma get_next_paragraph_fields (self : Document.t) (min_length max_length : Z) :
  snd (Document.get_next_paragraph self min_length max_length)
    = Document.set_current_position self
        (new_position self min_length max_length).
Proof.
  unfold new_position, Document.get_next_paragraph.
  destruct (len (Document.content self) <=? Document.current_position self).
  - destruct self; reflexivity.
  - reflexivity.
Qed.

(** For whatever lengths are asked, the cursor of a valid document stays
    between its old value and the length of the text. *)
Lemma new_position_bounds (self : Document.t) (min_length max_length : Z) :
  valid_position self ->
  Document.current_position self <= new_position self min_length max_length
    <= len (Document.content self).
Proof.
  intros [H0 Hlen].
  destruct (Z.eq_dec (Document.current_position self)
                     (len (Document.content self))) as [Heq|Hne].
  - rewrite new_position_terminal by lia. lia.
  - rewrite new_position_inner by lia.
    apply paragraph_end_bounds. lia.
Qed.

(** With a maximum length above 101, which the default of 500 is, the
    cursor stays in place in the terminal state only. *)
Lemma new_position_advances (self : Document.t) (min_length max_length : Z) :
  valid_position self ->
  101 < max_length ->
  (new_position self min_length max_length = Document.current_position self
   <-> Document.current_position self = len (Document.content self)).
Proof.
  intros [H0 Hlen] Hmax. split.
  - intros Heq.
    destruct (Z.eq_dec (Document.current_position self)
                       (len (Document.content self))) as [|Hne]; [assumption|].
    rewrite new_position_inner in Heq by lia.
    pose proof (paragraph_end_advances self min_length max_length
                  ltac:(lia) Hmax). lia.
  - intros Heq. apply new_position_terminal. lia.
Qed.

(** ** The iteration that reaches the maximum length *)

Lemma reaches_max_length_inner (self : Document.t) (min_length max_length : Z) :
  reaches_max_length self min_length max_length ->
  0 <= Document.current_position self < len (Document.content self).
Proof.
  intros (H0 & Hmax & _). split; [assumption|].
  destruct (Z.lt_ge_cases (Document.current_position self)
                          (len (Document.content self))) as [|Hge]; [assumption|].
  unfold Document.remaining_content in Hmax.
  rewrite (slice_from_past_end _ _ Hge) in Hmax. unfold len in Hmax.
  simpl in Hmax. lia.
Qed.

(** The cut of a call whose scan reaches the maximum length. *)
Lemma cut_at_max_length (self : Document.t) (min_length max_length : Z) :
  reaches_max_length self min_length max_length ->
  let position := Document.current_position self in
  let remaining_content := Document.remaining_content self in
  new_position self min_length max_length =
    if natural_boundary remaining_content min_length (max_length - 1)
    then position + max_length
    else Document.hard_cap_end position remaining_content (max_length - 1).
Proof.
  intros Hreach. cbv zeta.
  pose proof (reaches_max_length_inner _ _ _ Hreach) as Hpos.
  destruct Hreach as (_ & Hmax & Hnone).
  rewrite new_position_inner by apply Hpos.
  destruct (paragraph_end_cases self min_length max_length)
    as [[_ Hall]|(j & Hj & Hbefore & Hat)];
    set (position := Document.current_position self) in *;
    set (remaining_content := Document.remaining_content self) in *.
  - specialize (Hall (max_length - 1) ltac:(lia)). lia.
  - assert (Hle : j <= max_length - 1).
    { destruct (Z.le_gt_cases j (max_length - 1)) as [|Hgt]; [assumption|].
      specialize (Hbefore (max_length - 1) ltac:(lia)). lia. }
    assert (Hjeq : j = max_length - 1).
    { destruct Hat as [[Hnat _]|(_ & Hcap & _)]; [|lia].
      destruct (Z.eq_dec j (max_length - 1)) as [|Hne]; [assumption|].
      rewrite Hnone in Hnat by lia. discriminate. }
    subst j.
    destruct Hat as [[Hn He]|(Hn & _ & He)]; rewrite Hn, He; [lia|reflexivity].
Qed.

(** C1, as the code has it: in the iteration in which [current_length]
    equals [max_length] the test of the natural boundary comes first.  A
    sentence mark followed by a space or newline at that very iteration
    (with [max_length >= min_length]) is taken as the cut, [max_length]
    characters after the cursor; the cut of the maximum length is taken
    only when that character is not such a boundary. *)
Theorem C1_boundary_first_at_max_length
    (self : Document.t) (min_length max_length : Z) :
  reaches_max_length self min_length max_length ->
  let position := Document.current_position self in
  let remaining_content := Document.remaining_content self in
  new_position self min_length max_length =
    if natural_boundary remaining_content min_length (max_length - 1)
    then position + max_length
    else Document.hard_cap_end position remaining_content (max_length - 1).
Proof. exact (cut_at_max_length self min_length max_length). Qed.

Lemma no_boundary_below_spec (remaining_content : str) (min_length : Z) (n : nat) :
  no_boundary_below remaining_content min_length n = true ->
  forall k, 0 <= k < Z.of_nat n ->
            natural_boundary remaining_content min_length k = false.
Proof.
  unfold no_boundary_below. intros Hall k Hk.
  rewrite forallb_forall in Hall.
  specialize (Hall (Z.to_nat k)). rewrite Z2Nat.id in Hall by lia.
  apply negb_true_iff, Hall, in_seq. lia.
Qed.

Lemma mark_at_the_cap_reaches : reaches_max_length mark_at_the_cap 1 5.
Proof.
  split; [vm_compute; discriminate|]. split; [vm_compute; split; discriminate|].
  apply (no_boundary_below_spec _ _ 4). reflexivity.
Qed.

Lemma C1_boundary_first_witness :
  reaches_max_length mark_at_the_cap 1 5 /\
  new_position mark_at_the_cap 1 5 = 5.
Proof.
  split; [exact mark_at_the_cap_reaches|].
  rewrite (C1_boundary_first_at_max_length mark_at_the_cap 1 5
             mark_at_the_cap_reaches).
  reflexivity.
Defined.

(** C1 as stated fails: on ["ab c. de"] with lengths 1 and 5 the scan
    reaches [current_length == 5] on the full stop before a space; the call
    cuts after it, at 5, while the cut of the maximum length is the space
    at 2. *)
Lemma C1_counterexample :
  ~ (forall (self : Document.t) (min_length max_length : Z),
       reaches_max_length self min_length max_length ->
       new_position self min_length max_length =
       Document.hard_cap_end (Document.current_position self)
         (Document.remaining_content self)
         (max_length - 1)).
Proof.
  intros H. specialize (H mark_at_the_cap 1 5 mark_at_the_cap_reaches).
  vm_compute in H. discriminate.
Qed.

(** ** Scenario A *)

(** C2, as the code has it: the call returns ["Hello world."] and leaves
    the cursor at 12, right after the full stop and on the space that
    follows it. *)
Theorem C2_scenario_A :
  Document.get_next_paragraph scenario_A 10 500
    = ((of_string "Hello world.", false),
       Document.set_current_position scenario_A 12) /\
  len (of_string "Hello world.") = 12 /\
  get (Document.content scenario_A) 12 = Some space.
Proof. repeat split. Qed.

(** C2 as stated fails: the cursor is not after ["Hello world. "]. *)
Lemma C2_counterexample :
  new_position scenario_A 10 500 <> len (of_string "Hello world. ").
Proof. vm_compute. discriminate. Qed.

(** ** The cursor *)

(** C3 fails on the code for a maximum length of 101 or less: on
    [" aaaaaaaa"] with lengths 1 and 5 the last space of the first five
    characters is the first of them, the cut falls on the cursor, and the
    call returns an empty paragraph without moving the cursor, which is
    not at the end of the text. *)
Theorem C3_cursor_stalls_on_leading_space :
  Document.get_next_paragraph leading_space 1 5 = (([], false), leading_space) /\
  Document.current_position leading_space
    < len (Document.content leading_space).
Proof. split; reflexivity. Qed.

(** The cursor with a maximum length above 101, which covers the defaults. *)
Lemma cursor_monotonic_above_101 (self : Document.t) (min_length max_length : Z) :
  valid_position self ->
  101 < max_length ->
  let position := Document.current_position self in
  let new := new_position self min_length max_length in
  position <= new <= len (Document.content self) /\
  (new = position <-> position = len (Document.content self)) /\
  (position = len (Document.content self) ->
   Document.get_next_paragraph self min_length max_length
     = ((Document.end_of_document, true), self)).
Proof.
  intros Hvalid Hmax position new. split; [|split].
  - apply new_position_bounds. assumption.
  - apply new_position_advances; assumption.
  - intros Heq. apply get_next_paragraph_terminal. unfold position in Heq. lia.
Qed.

(** ** The cut at the maximum length *)

(** C4 fails on the code: the part searched for a space is
    [remaining_content[i-100:i+1]], 101 characters.  With the only space
    of the text at index 399 and lengths 100 and 500, the last 100
    characters scanned, 400 to 499, have no space, yet the call cuts at
    399 and not at 500. *)
Theorem C4_space_101_back_is_found :
  reaches_max_length space_at_399 100 500 /\
  natural_boundary (Document.remaining_content space_at_399) 100 499 = false /\
  Document.get_next_paragraph space_at_399 100 500
    = ((repeat_char a 399, false),
       Document.set_current_position space_at_399 399) /\
  slice (Document.content space_at_399) 400 500 = repeat_char a 100 /\
  get (Document.content space_at_399) 399 = Some space.
Proof.
  split; [|vm_compute; repeat split].
  split; [vm_compute; discriminate|]. split; [vm_compute; split; discriminate|].
  apply (no_boundary_below_spec _ _ 499). vm_compute. reflexivity.
Qed.

(** Scenario B holds on the code. *)
Lemma scenario_B_cut_at_500 :
  Document.get_next_paragraph scenario_B 100 500
    = ((repeat_char a 500, false), Document.set_current_position scenario_B 500).
Proof. vm_compute. reflexivity. Qed.

(** What the code does when the scan reaches the maximum length on a
    character that is no natural boundary: it cuts on the last space of
    the last 101 characters scanned, or after [max_length] characters. *)
Lemma hard_cap_over_101_characters
    (self : Document.t) (min_length max_length : Z) :
  reaches_max_length self min_length max_length ->
  let position := Document.current_position self in
  let remaining_content := Document.remaining_content self in
  natural_boundary remaining_content min_length (max_length - 1) = false ->
  ((forall k, Z.max 0 (max_length - 101) <= k < max_length ->
              get remaining_content k <> Some space) /\
   new_position self min_length max_length = position + max_length) \/
  (exists k, Z.max 0 (max_length - 101) <= k < max_length /\
             get remaining_content k = Some space /\
             (forall k', k < k' < max_length ->
                         get remaining_content k' <> Some space) /\
             new_position self min_length max_length = position + k).
Proof.
  intros Hreach. cbv zeta. intros Hnat.
  rewrite (cut_at_max_length _ _ _ Hreach). cbv zeta.
  rewrite Hnat.
  destruct Hreach as (_ & Hmax & _).
  set (position := Document.current_position self) in *.
  set (remaining_content := Document.remaining_content self) in *.
  destruct (hard_cap_end_spec position remaining_content (max_length - 1)
              ltac:(lia)) as [[Hno ->]|(k & Hk & Hat & Hafter & ->)].
  - left. split; [|lia]. intros k Hk. apply Hno. lia.
  - right. exists k. split; [lia|]. split; [assumption|]. split; [|reflexivity].
    intros k' Hk'. apply Hafter. lia.
Qed.

(** ** The length of a paragraph *)

(** C5, amended with [1 <= max_length]: a call moves the cursor by at most
    [max_length] characters. *)
Theorem C5_span_at_most_max_length
    (self : Document.t) (min_length max_length : Z) :
  0 <= Document.current_position self < len (Document.content self) ->
  min_length <= max_length ->
  1 <= max_length ->
  new_position self min_length max_length - Document.current_position self
    <= max_length.
Proof.
  intros Hpos _ Hmax. rewrite new_position_inner by apply Hpos.
  apply paragraph_end_span; assumption.
Qed.

Lemma C5_span_witness :
  new_position scenario_A 10 500 - Document.current_position scenario_A <= 500.
Proof.
  apply (C5_span_at_most_max_length scenario_A 10 500).
  - vm_compute. split; [discriminate|reflexivity].
  - lia.
  - lia.
Defined.

(** C5 as stated fails: with both lengths 0 a call on ["ab"] still moves
    the cursor by one character. *)
Lemma C5_counterexample :
  ~ (forall (self : Document.t) (min_length max_length : Z),
       0 <= Document.current_position self < len (Document.content self) ->
       min_length <= max_length ->
       new_position self min_length max_length
         - Document.current_position self <= max_length).
Proof.
  intros H. specialize (H two_letters 0 0).
  assert (Hc : new_position two_letters 0 0
               - Document.current_position two_letters = 1) by reflexivity.
  rewrite Hc in H. 
  assert (Hp : 0 <= Document.current_position two_letters
               < len (Document.content two_letters))
    by (vm_compute; split; [discriminate|reflexivity]).
  specialize (H Hp ltac:(lia)). lia.
Qed.

(** ** Successive calls *)






Section Reading.

Variables (min_length max_length : Z).





End Reading.



(** ** The database: one active document for a user *)

Lemma fold_max_above (first : Z) (ids : list Z) :
  first <= fold_right Z.max first ids /\
  forall x, In x ids -> x <= fold_right Z.max first ids.
Proof.
  induction ids as [|y ids [IHfirst IH]]; cbn [fold_right].
  - split; [lia|intros x []].
  - split; [lia|]. intros x [->|Hin]; [lia|]. specialize (IH x Hin). lia.
Qed.

Lemma next_id_above (ids : list Z) (x : Z) : In x ids -> x < next_id ids.
Proof.
  destruct ids as [|y ids]; intros Hin; [contradiction|].
  cbn [next_id]. destruct (fold_max_above y ids) as [Hfirst Hrest].
  destruct Hin as [->|Hin]; [lia|]. specialize (Hrest x Hin). lia.
Qed.

Lemma NoDup_map_eq {A : Type} (f : A -> Z) (l : list A) (x y : A) :
  NoDup (map f l) -> In x l -> In y l -> f x = f y -> x = y.
Proof.
  induction l as [|z l IH]; intros Hnd Hx Hy Hf; [contradiction|].
  cbn in Hnd. inversion Hnd as [|? ? Hnotin Hnd']; subst.
  destruct Hx as [->|Hx], Hy as [->|Hy]; auto.
  - exfalso. apply Hnotin. rewrite Hf. apply in_map. assumption.
  - exfalso. apply Hnotin. rewrite <- Hf. apply in_map. assumption.
Qed.




Section Flags.

Variable db : Database.
Hypothesis Hkey : primary_key db.
Hypothesis Hone : at_most_one_active db.





(** Writing back a row that was loaded and whose cursor alone changed
    leaves the flags of every row as they were. *)
Lemma update_document_flags (doc : Document.t) (p : Z) :
  In doc (documents db) ->
  map flags (documents (update_document db (Document.set_current_position doc p)))
    = map flags (documents db).
Proof.
  intros Hin. unfold update_document. cbn [documents]. rewrite map_map.
  apply map_ext_in. intros d Hd. cbn [Document.id Document.set_current_position].
  destruct (Z.eqb_spec (Document.id d) (Document.id doc)) as [He|]; [|reflexivity].
  rewrite (NoDup_map_eq Document.id (documents db) d doc Hkey Hd Hin He).
  reflexivity.
Qed.

End Flags.

Lemma primary_key_flags (db db' : Database) :
  map flags (documents db') = map flags (documents db) ->
  primary_key db -> primary_key db'.
Proof.
  intros H Hk. unfold primary_key in *.
  replace (map Document.id (documents db'))
    with (map (fun f => fst (fst f)) (map flags (documents db')))
    by (rewrite map_map; reflexivity).
  rewrite H, map_map. exact Hk.
Qed.

Lemma length_filter_same_map {A B : Type} (f : A -> B) (p : B -> bool)
    (l l' : list A) :
  map f l' = map f l ->
  length (filter (fun d => p (f d)) l') = length (filter (fun d => p (f d)) l).
Proof.
  revert l'. induction l as [|d l IH]; intros [|d' l'] H; try discriminate;
    [reflexivity|].
  cbn [map] in H. injection H as Hd Hl. cbn [filter]. rewrite Hd.
  destruct (p (f d)); cbn [length]; rewrite (IH l' Hl); reflexivity.
Qed.

Lemma at_most_one_active_flags (db db' : Database) :
  map flags (documents db') = map flags (documents db) ->
  at_most_one_active db -> at_most_one_active db'.
Proof.
  intros H Hone u. specialize (Hone u). unfold active_documents in *.
  change (length (filter (fun d => (fun f => (snd (fst f) =? u)%Z && snd f)
                                     (flags d)) (documents db')) <= 1)%nat.
  rewrite (length_filter_same_map flags _ _ _ H). exact Hone.
Qed.

Lemma get_or_create_user_documents (db : Database) (telegram_id : str)
    (username first_name last_name : option str) (now : Z) :
  documents (snd (get_or_create_user db telegram_id username first_name
                                     last_name now)) = documents db.
Proof.
  unfold get_or_create_user. destruct (find _ (users db)); reflexivity.
Qed.



Lemma one_reader_key : primary_key one_reader.
Proof. unfold primary_key. cbn. repeat constructor. intros []. Qed.



(** ** Uploads *)

Lemma length_lstrip (s : str) : (length (lstrip s) <= length s)%nat.
Proof.
  induction s as [|c s IH]; cbn; [lia|].
  destruct (isspace c); cbn; lia.
Qed.

Lemma len_strip (s : str) : len (strip s) <= len s.
Proof.
  unfold len, strip, rstrip. rewrite length_rev.
  pose proof (length_lstrip (rev (lstrip s))) as H1.
  pose proof (length_lstrip s) as H2.
  rewrite length_rev in H1. lia.
Qed.

(** C7: an upload whose extracted text has fewer than 10 characters leaves
    the database as it was: no document is added and the active document
    of every user is the one it was.  It is answered with the message of a
    failed extraction, unless the file name was refused before any
    extraction as neither [.pdf] nor [.epub]. *)
Theorem C7_short_extraction_changes_nothing
    (lower : str -> str)
    (extract_text_from_pdf extract_text_from_epub : list Byte.byte -> str)
    (db : Database) (telegram_id file_name : str)
    (file_data : list Byte.byte) (now : Z) :
  len (extract_text_from_document lower extract_text_from_pdf
         extract_text_from_epub file_data file_name) < 10 ->
  let '(reply, db') :=
    handle_document_upload lower extract_text_from_pdf extract_text_from_epub
      db telegram_id file_name file_data now in
  reply = (if endswith (lower file_name) (of_string ".pdf")
              || endswith (lower file_name) (of_string ".epub")
           then EmptyExtraction else UnsupportedFormat) /\
  db' = db /\
  documents db' = documents db /\
  forall user, get_active_document db' user = get_active_document db user.
Proof.
  intros Hshort. unfold handle_document_upload.
  destruct (endswith (lower file_name) (of_string ".pdf")
            || endswith (lower file_name) (of_string ".epub"));
    cbn [negb]; [|repeat split].
  set (text := extract_text_from_document lower extract_text_from_pdf
                 extract_text_from_epub file_data file_name) in *.
  pose proof (len_strip text) as Hstrip.
  destruct (Z.ltb_spec (len (strip text)) 10); [|lia].
  rewrite orb_true_r. repeat split.
Qed.

Lemma C7_short_extraction_witness :
  handle_document_upload lower_of_lowercase five_characters five_characters
    one_reader (of_string "4711") (of_string "scan.pdf") [] 5
  = (EmptyExtraction, one_reader).
Proof.
  pose proof (C7_short_extraction_changes_nothing lower_of_lowercase
                five_characters five_characters one_reader (of_string "4711")
                (of_string "scan.pdf") [] 5 eq_refl) as H.
  destruct (handle_document_upload _ _ _ _ _ _ _ _) as [reply db'].
  destruct H as (-> & -> & _). reflexivity.
Defined.

(** ** Floats: rounding keeps a small non-negative number finite *)

Section FloatFacts.

Import PyFloat.

Lemma digits2_pos_bounds (p : positive) :
  2 ^ (Zpos (digits2_pos p) - 1) <= Zpos p < 2 ^ Zpos (digits2_pos p).
Proof.
  induction p as [p IH|p IH|]; cbn [digits2_pos].
  - rewrite Pos2Z.inj_succ.
    replace (Z.succ (Zpos (digits2_pos p)) - 1)
      with (Z.succ (Zpos (digits2_pos p) - 1)) by lia.
    rewrite !Z.pow_succ_r by lia. lia.
  - rewrite Pos2Z.inj_succ.
    replace (Z.succ (Zpos (digits2_pos p)) - 1)
      with (Z.succ (Zpos (digits2_pos p) - 1)) by lia.
    rewrite !Z.pow_succ_r by lia. lia.
  - cbn. lia.
Qed.

Lemma Zdigits2_nonneg (m : Z) : 0 <= Zdigits2 m.
Proof. destruct m; cbn; lia. Qed.

Lemma Zdigits2_pos (p : positive) : 1 <= Zdigits2 (Zpos p).
Proof. cbn. lia. Qed.

(** A number below [2 ^ k] has at most [k] digits. *)
Lemma Zdigits2_le (m k : Z) : 0 <= m < 2 ^ k -> 0 <= k -> Zdigits2 m <= k.
Proof.
  intros Hm Hk. destruct m as [|p|p]; [cbn; lia| |lia].
  cbn [Zdigits2]. pose proof (digits2_pos_bounds p) as [Hlow _].
  destruct (Z.le_gt_cases (Zpos (digits2_pos p)) k) as [|Hgt]; [assumption|].
  exfalso.
  assert (2 ^ k <= 2 ^ (Zpos (digits2_pos p) - 1))
    by (apply Z.pow_le_mono_r; lia).
  lia.
Qed.

Lemma Zdigits2_gt (m : Z) : 0 <= m -> m < 2 ^ Zdigits2 m.
Proof.
  intros Hm. destruct m as [|p|p]; [cbn; lia| |lia].
  apply digits2_pos_bounds.
Qed.

Lemma shr_m_shr_1 (mrs : shr_record) :
  0 <= shr_m mrs -> shr_m (shr_1 mrs) = shr_m mrs / 2.
Proof.
  destruct mrs as [m r s]. cbn [shr_m]. intros Hm.
  destruct m as [|[p|p|]|p]; cbn [shr_1 shr_m]; try lia.
  - reflexivity.
  - rewrite Pos2Z.inj_xI. apply Z.div_unique with (r := 1); lia.
  - rewrite Pos2Z.inj_xO. apply Z.div_unique with (r := 0); lia.
  - reflexivity.
Qed.

Lemma shr_m_iter_pos (p : positive) : forall mrs : shr_record,
  0 <= shr_m mrs ->
  shr_m (iter_pos shr_1 p mrs) = shr_m mrs / 2 ^ Zpos p.
Proof.
  induction p as [p IH|p IH|]; intros mrs Hm; cbn [iter_pos].
  - assert (H1 : 0 <= shr_m (shr_1 mrs))
      by (rewrite shr_m_shr_1 by assumption; apply Z.div_pos; lia).
    assert (H2 : 0 <= shr_m (iter_pos shr_1 p (shr_1 mrs)))
      by (rewrite IH by assumption; apply Z.div_pos; lia).
    rewrite IH by assumption. rewrite IH by assumption.
    rewrite shr_m_shr_1 by assumption.
    rewrite !Z.div_div by lia. f_equal.
    change (Zpos p~1) with (2 * Zpos p + 1).
    replace (2 * Zpos p + 1) with (1 + Zpos p + Zpos p) by lia.
    rewrite !Z.pow_add_r by lia. lia.
  - assert (H2 : 0 <= shr_m (iter_pos shr_1 p mrs))
      by (rewrite IH by assumption; apply Z.div_pos; lia).
    rewrite IH by assumption. rewrite IH by assumption.
    rewrite !Z.div_div by lia. f_equal.
    change (Zpos p~0) with (2 * Zpos p).
    replace (2 * Zpos p) with (Zpos p + Zpos p) by lia.
    rewrite !Z.pow_add_r by lia. lia.
  - rewrite shr_m_shr_1 by assumption. reflexivity.
Qed.

Lemma Zdigits2_mono (m n : Z) : 0 <= m <= n -> Zdigits2 m <= Zdigits2 n.
Proof.
  intros H. apply Zdigits2_le; [|apply Zdigits2_nonneg].
  pose proof (Zdigits2_gt n ltac:(lia)). lia.
Qed.

Lemma Zdigits2_succ (m : Z) : 0 <= m -> Zdigits2 (m + 1) <= Zdigits2 m + 1.
Proof.
  intros H. pose proof (Zdigits2_nonneg m) as Hd.
  apply Zdigits2_le; [|lia].
  pose proof (Zdigits2_gt m H) as Hgt.
  rewrite Z.pow_add_r by lia. lia.
Qed.

Lemma Zdigits2_mul (m n : Z) :
  0 <= m -> 0 <= n -> Zdigits2 (m * n) <= Zdigits2 m + Zdigits2 n.
Proof.
  intros Hm Hn.
  pose proof (Zdigits2_nonneg m) as Hdm. pose proof (Zdigits2_nonneg n) as Hdn.
  apply Zdigits2_le; [|lia].
  pose proof (Zdigits2_gt m Hm) as Hgm. pose proof (Zdigits2_gt n Hn) as Hgn.
  rewrite Z.pow_add_r by lia. split; [lia|].
  apply Z.mul_lt_mono_nonneg; lia.
Qed.

Lemma Zdigits2_div_pow2 (m n : Z) :
  0 <= m -> 0 < n ->
  Zdigits2 (m / 2 ^ n) <= Z.max 0 (Zdigits2 m - n).
Proof.
  intros Hm Hn. pose proof (Zdigits2_gt m Hm) as Hgt.
  assert (Hpow : 0 < 2 ^ n) by (apply Z.pow_pos_nonneg; lia).
  apply Zdigits2_le; [|lia]. split; [apply Z.div_pos; lia|].
  apply Z.div_lt_upper_bound; [assumption|].
  rewrite <- Z.pow_add_r by lia.
  apply Z.lt_le_trans with (1 := Hgt).
  apply Z.pow_le_mono_r; lia.
Qed.

Lemma fexp_eq (x : Z) : fexp prec emax x = Z.max (x - 53) (-1074).
Proof. reflexivity. Qed.

Lemma shr_m_of_loc (m : Z) (l : location) : shr_m (shr_record_of_loc m l) = m.
Proof. destruct l as [|[]]; reflexivity. Qed.

(** The shift of a rounding: the mantissa stays non-negative, the exponent
    becomes the larger of the old one and the one of the format, and the
    number of digits plus the exponent does not grow beyond that. *)
Lemma shr_fexp_spec (m e : Z) (l : location) :
  0 <= m ->
  let '(mrs, e') := shr_fexp prec emax m e l in
  0 <= shr_m mrs <= m /\
  e' = Z.max e (fexp prec emax (Zdigits2 m + e)) /\
  Zdigits2 (shr_m mrs) + e' <= Z.max (Zdigits2 m + e) e'.
Proof.
  intros Hm. unfold shr_fexp, shr.
  set (n := fexp prec emax (Zdigits2 m + e) - e).
  assert (Hn : fexp prec emax (Zdigits2 m + e) = e + n) by (unfold n; lia).
  rewrite Hn. clearbody n.
  destruct n as [|p|p]; rewrite ?shr_m_of_loc.
  - split; [lia|]. split; lia.
  - rewrite shr_m_iter_pos by (rewrite shr_m_of_loc; assumption).
    rewrite shr_m_of_loc.
    assert (Hpow : 0 < 2 ^ Zpos p) by (apply Z.pow_pos_nonneg; lia).
    split; [split; [apply Z.div_pos; lia|]|].
    + apply Z.div_le_upper_bound; [assumption|]. nia.
    + split; [lia|].
      pose proof (Zdigits2_div_pow2 m (Zpos p) Hm ltac:(lia)). lia.
  - split; [lia|]. split; lia.
Qed.

Lemma round_nearest_even_bounds (m : Z) (l : location) :
  m <= round_nearest_even m l <= m + 1.
Proof.
  destruct l as [|[]]; cbn [round_nearest_even]; try lia.
  destruct (Z.even m); lia.
Qed.

(** Rounding a non-negative mantissa of moderate size gives a zero or a
    finite number of the given sign, and at most one digit more. *)
Lemma binary_round_aux_finite (sx : bool) (mx ex : Z) (lx : location) :
  0 <= mx -> ex <= 971 -> Zdigits2 mx + ex <= 1023 ->
  binary_round_aux prec emax sx mx ex lx = S754_zero sx \/
  exists m e,
    binary_round_aux prec emax sx mx ex lx = S754_finite sx m e /\
    Zdigits2 (Zpos m) + e <= Z.max (Zdigits2 mx + ex + 1) (-1073).
Proof.
  intros Hmx Hex Hmag. unfold binary_round_aux.
  pose proof (shr_fexp_spec mx ex lx Hmx) as H1.
  destruct (shr_fexp prec emax mx ex lx) as [mrs' e'].
  destruct H1 as (Hm1 & He1 & Hd1).
  pose proof (round_nearest_even_bounds (shr_m mrs') (loc_of_shr_record mrs'))
    as Hround.
  set (m2 := round_nearest_even (shr_m mrs') (loc_of_shr_record mrs')) in *.
  pose proof (shr_fexp_spec m2 e' loc_Exact ltac:(lia)) as H2.
  destruct (shr_fexp prec emax m2 e' loc_Exact) as [mrs'' e''].
  destruct H2 as (Hm3 & He3 & Hd3).
  rewrite fexp_eq in He1, He3.
  assert (Hd2 : Zdigits2 m2 <= Zdigits2 (shr_m mrs') + 1).
  { apply Z.le_trans with (Zdigits2 (shr_m mrs' + 1)).
    - apply Zdigits2_mono. lia.
    - apply Zdigits2_succ. lia. }
  destruct (shr_m mrs'') as [|m|m] eqn:Hm; [left; reflexivity| |lia].
  right. exists m, e''.
  pose proof (Zdigits2_nonneg mx) as Hn0. pose proof (Zdigits2_pos m) as Hn1.
  destruct (Z.leb_spec e'' (emax - prec)) as [|Hgt].
  - split; [reflexivity|]. lia.
  - exfalso. unfold emax, prec in Hgt. lia.
Qed.

(** The core of a division of a mantissa by one that is not smaller. *)
Lemma SFdiv_core_binary_fraction (m1 m2 : positive) :
  Zpos m1 <= Zpos m2 ->
  let '(q, e', _) := SFdiv_core_binary prec emax (Zpos m1) 0 (Zpos m2) 0 in
  0 <= q /\ e' <= 0 /\ Zdigits2 q + e' <= 1.
Proof.
  intros Hle. unfold SFdiv_core_binary.
  set (e' := Z.min (fexp prec emax
                      (Zdigits2 (Zpos m1) + 0 - (Zdigits2 (Zpos m2) + 0)))
                   (0 - 0)).
  assert (He : e' <= 0) by (unfold e'; lia).
  set (s := 0 - 0 - e').
  assert (Hs : s = - e') by (unfold s; lia).
  assert (Hq : forall m', 0 <= m' <= Zpos m2 * 2 ^ s ->
            0 <= m' / Zpos m2 /\ Zdigits2 (m' / Zpos m2) + e' <= 1).
  { intros m' Hm'. assert (0 < 2 ^ s) by (apply Z.pow_pos_nonneg; lia).
    split; [apply Z.div_pos; lia|].
    assert (Hd : Zdigits2 (m' / Zpos m2) <= s + 1); [|lia].
    apply Zdigits2_le; [|lia]. split; [apply Z.div_pos; lia|].
    apply Z.div_lt_upper_bound; [lia|].
    rewrite Z.pow_add_r by lia. nia. }
  assert (Hpow : 0 < 2 ^ s) by (apply Z.pow_pos_nonneg; lia).
  clearbody s e'.
  destruct s as [|k|k].
  - specialize (Hq (Zpos m1) ltac:(cbn in *; lia)).
    unfold Z.div in Hq. destruct (Z.div_eucl (Zpos m1) (Zpos m2)) as [q r].
    cbn [fst] in Hq. split; [apply Hq|]. split; [assumption|apply Hq].
  - assert (Hsh : Z.shiftl (Zpos m1) (Zpos k) = Zpos m1 * 2 ^ Zpos k)
      by (apply Z.shiftl_mul_pow2; lia).
    rewrite Hsh.
    specialize (Hq (Zpos m1 * 2 ^ Zpos k) ltac:(nia)).
    unfold Z.div in Hq.
    destruct (Z.div_eucl (Zpos m1 * 2 ^ Zpos k) (Zpos m2)) as [q r].
    cbn [fst] in Hq. split; [apply Hq|]. split; [assumption|apply Hq].
  - lia.
Qed.

(** The quotient of two integers [0 <= p <= n], [0 < n], is a float and it
    is a zero or a positive number below 4. *)
Lemma int_truediv_fraction (p n : Z) :
  0 <= p <= n -> 0 < n ->
  exists q, int_truediv p n = Some q /\
    (q = S754_zero false \/
     exists m e, q = S754_finite false m e /\ Zdigits2 (Zpos m) + e <= 2).
Proof.
  intros Hp Hn. unfold int_truediv.
  destruct (Z.eqb_spec n 0); [lia|].
  destruct n as [|n|n]; try lia.
  destruct p as [|p|p]; try lia.
  - exists (S754_zero false). split; [reflexivity|left; reflexivity].
  - cbn [exact SFdiv xorb].
    pose proof (SFdiv_core_binary_fraction p n ltac:(lia)) as Hcore.
    destruct (SFdiv_core_binary prec emax (Zpos p) 0 (Zpos n) 0)
      as [[mz ez] lz].
    destruct Hcore as (Hmz & Hez & Hmag).
    destruct (binary_round_aux_finite false mz ez lz Hmz ltac:(lia) ltac:(lia))
      as [->|(m & e & -> & Hbound)].
    + exists (S754_zero false). split; [reflexivity|left; reflexivity].
    + exists (S754_finite false m e). split; [reflexivity|].
      right. exists m, e. split; [reflexivity|lia].
Qed.

Lemma of_int_100 : of_int 100 = S754_finite false 7036874417766400 (-46).
Proof. reflexivity. Qed.

(** A hundred times a float that is zero or positive and below 4 is zero
    or a positive finite float. *)
Lemma mul_int_100_fraction (q : float) :
  (q = S754_zero false \/
   exists m e, q = S754_finite false m e /\ Zdigits2 (Zpos m) + e <= 2) ->
  mul_int q 100 = S754_zero false \/
  exists m e, mul_int q 100 = S754_finite false m e.
Proof.
  unfold mul_int. rewrite of_int_100.
  intros [->|(m & e & -> & Hmag)]; [left; reflexivity|].
  cbn [SFmul xorb].
  pose proof (Zdigits2_pos m) as Hd.
  pose proof (Zdigits2_mul (Zpos m) (Zpos 7036874417766400)
                ltac:(lia) ltac:(lia)) as Hmul.
  change (Zdigits2 (Zpos 7036874417766400)) with 53 in Hmul.
  rewrite <- Pos2Z.inj_mul in Hmul.
  destruct (binary_round_aux_finite false
              (Zpos (m * 7036874417766400)) (e + -46) loc_Exact
              ltac:(lia) ltac:(lia) ltac:(lia))
    as [->|(m' & e' & -> & _)]; [left; reflexivity|].
  right. exists m', e'. reflexivity.
Qed.

Lemma to_int_nonneg (x : float) :
  (x = S754_zero false \/ exists m e, x = S754_finite false m e) ->
  exists n, to_int x = Some n /\ 0 <= n.
Proof.
  intros [->|(m & e & ->)]; cbn [to_int cond_Zopp]; [exists 0; split; [reflexivity|lia]|].
  eexists. split; [reflexivity|].
  destruct e as [|k|k].
  - lia.
  - assert (0 < 2 ^ Zpos k) by (apply Z.pow_pos_nonneg; lia). nia.
  - apply Z.div_pos; [lia|]. apply Z.pow_pos_nonneg; lia.
Qed.

(** A quotient of an integer by itself is 1.0, and times 100 it is 100.0. *)
Lemma int_truediv_same (n : positive) :
  int_truediv (Zpos n) (Zpos n) = Some (S754_finite false 4503599627370496 (-52)).
Proof.
  unfold int_truediv. cbn [Z.eqb exact SFdiv xorb].
  unfold SFdiv_core_binary.
  replace (Zdigits2 (Zpos n) + 0 - (Zdigits2 (Zpos n) + 0)) with 0 by lia.
  change (Z.min (fexp prec emax 0) (0 - 0)) with (-53).
  change (0 - 0 - -53) with 53.
  cbv iota beta.
  rewrite Z.shiftl_mul_pow2 by lia.
  assert (Hdiv : Z.div_eucl (Zpos n * 2 ^ 53) (Zpos n) = (2 ^ 53, 0)).
  { pose proof (Z.div_eucl_eq (Zpos n * 2 ^ 53) (Zpos n) ltac:(lia)) as Heq.
    pose proof (Z.mod_pos_bound (Zpos n * 2 ^ 53) (Zpos n) ltac:(lia)) as Hmod.
    unfold Z.modulo in Hmod.
    destruct (Z.div_eucl (Zpos n * 2 ^ 53) (Zpos n)) as [q r].
    assert (q = 2 ^ 53) by nia. assert (r = 0) by nia. congruence. }
  rewrite Hdiv.
  assert (Hloc : new_location (Zpos n) 0 = loc_Exact).
  { unfold new_location, new_location_even, new_location_odd.
    destruct (Z.even (Zpos n)); reflexivity. }
  rewrite Hloc. reflexivity.
Qed.

End FloatFacts.

(** ** The progress of a reading *)

(** For a cursor inside the text the percentage is computed without an
    exception and lies between 0 and 100; it is 0 for an empty text and
    100 at the end of a text that is not empty. *)
Lemma get_progress_percentage_spec (self : Document.t) :
  valid_position self ->
  exists v, Document.get_progress_percentage self = Some v /\
    0 <= v <= 100 /\
    (Document.content self = [] -> v = 0) /\
    (Document.content self <> [] ->
     Document.current_position self = len (Document.content self) -> v = 100).
Proof.
  intros [H0 Hle]. unfold Document.get_progress_percentage.
  destruct (Document.content self) as [|c text] eqn:Hcontent.
  - exists 0. repeat split; try lia. congruence.
  - assert (Hlen : 0 < len (c :: text)) by (unfold len; cbn [length]; lia).
    destruct (Z.eq_dec (Document.current_position self) (len (c :: text)))
      as [Heq|Hne].
    + rewrite Heq. destruct (len (c :: text)) as [|n|n]; try lia.
      rewrite int_truediv_same.
      exists 100. repeat split; try lia. congruence.
    + destruct (int_truediv_fraction (Document.current_position self)
                  (len (c :: text)) ltac:(lia) Hlen) as (q & -> & Hq).
      destruct (to_int_nonneg _ (mul_int_100_fraction q Hq)) as (n & -> & Hn).
      exists (Z.min 100 n). repeat split; try lia; congruence.
Qed.

(** C6, as far as the code keeps it.  When the user has an active document
    whose cursor is inside its text, [next_paragraph_command] answers with
    a paragraph; the percentage it computes and the one it prints lie
    between 0 and 100, and an empty text has 0.  At the end of the text
    the paragraph is ["Fin del documento."], [is_final] is true, the
    document is written back as it was, the message prints 100 and, for a
    text that is not empty, 100 is also the percentage computed. *)
Theorem C6_progress_of_a_paragraph
    (db : Database) (telegram_id : str) (now : Z) (active_doc : Document.t) :
  get_active_document
    (snd (get_or_create_user db telegram_id None None None now))
    (fst (get_or_create_user db telegram_id None None None now))
    = Some active_doc ->
  valid_position active_doc ->
  exists view db',
    next_paragraph_command db telegram_id now = (Fragment view, db') /\
    0 <= progress view <= 100 /\
    0 <= shown_progress view <= 100 /\
    (Document.content active_doc = [] -> progress view = 0) /\
    (Document.current_position active_doc = len (Document.content active_doc) ->
     fragment view = Document.end_of_document /\
     is_final view = true /\
     shown_progress view = 100 /\
     db' = update_document
             (snd (get_or_create_user db telegram_id None None None now))
             active_doc /\
     (Document.content active_doc <> [] -> progress view = 100)).
Proof.
  intros Hactive Hvalid. unfold next_paragraph_command.
  destruct (get_or_create_user db telegram_id None None None now)
    as [db_user db1]. cbn [fst snd] in Hactive |- *. rewrite Hactive.
  pose proof (new_position_bounds active_doc Document.default_min_length
                Document.default_max_length Hvalid) as Hnew.
  pose proof (get_next_paragraph_fields active_doc Document.default_min_length
                Document.default_max_length) as Hfields.
  destruct (Z.eq_dec (Document.current_position active_doc)
                     (len (Document.content active_doc))) as [Hend|Hinner].
  - rewrite get_next_paragraph_terminal by lia.
    destruct (get_progress_percentage_spec active_doc Hvalid)
      as (v & -> & Hv & Hempty & Hfull).
    eexists. eexists. split; [reflexivity|]. cbn.
    repeat split; try lia; auto.
  - destruct (Document.get_next_paragraph active_doc
                Document.default_min_length Document.default_max_length)
      as [[paragraph final] doc']. cbn [snd] in Hfields. subst doc'.
    set (doc' := Document.set_current_position active_doc _) in *.
    assert (Hvalid' : valid_position doc')
      by (unfold valid_position, doc'; cbn; unfold valid_position in Hvalid; lia).
    destruct (get_progress_percentage_spec doc' Hvalid')
      as (v & -> & Hv & Hempty & _).
    eexists. eexists. split; [reflexivity|]. cbn.
    split; [lia|]. split; [destruct final; lia|]. split; [exact Hempty|].
    intros Hend. contradiction.
Qed.

Lemma reader_at_start_active :
  get_active_document
    (snd (get_or_create_user reader_at_start (of_string "4711") None None None 7))
    (fst (get_or_create_user reader_at_start (of_string "4711") None None None 7))
    = Some first_sentence_290.
Proof. vm_compute. reflexivity. Qed.

Lemma C6_progress_witness :
  exists view db',
    next_paragraph_command reader_at_start (of_string "4711") 7
      = (Fragment view, db') /\
    0 <= progress view <= 100.
Proof.
  destruct (C6_progress_of_a_paragraph reader_at_start (of_string "4711") 7
              first_sentence_290 reader_at_start_active)
    as (view & db' & Hreply & Hrange & _).
  - vm_compute. split; discriminate.
  - exists view, db'. split; assumption.
Defined.

(** C6 as stated fails twice.  The paragraph of a finished document is
    ["Fin del documento."] and not ["End of document."].  And after the
    first paragraph of [first_sentence_290], which moves the cursor to 290
    of 1000 characters, the percentage is 28: the float [290 / 1000] times
    100 is just below 29, while [floor (290 / 1000 * 100)] is 29. *)
Lemma C6_counterexample :
  (Document.get_next_paragraph finished Document.default_min_length
     Document.default_max_length
     = ((of_string "Fin del documento.", true), finished) /\
   of_string "Fin del documento." <> of_string "End of document.") /\
  (exists view db',
     next_paragraph_command reader_at_start (of_string "4711") 7
       = (Fragment view, db') /\
     get_active_document db' reader
       = Some (Document.set_current_position first_sentence_290 290) /\
     len (Document.content first_sentence_290) = 1000 /\
     is_final view = false /\
     progress view = 28 /\
     Z.min 100 (290 * 100 / 1000) = 29).
Proof.
  split.
  - split; [reflexivity|]. vm_compute. discriminate.
  - eexists. eexists. split; [vm_compute; reflexivity|].
    cbn [is_final progress]. repeat split.
Qed.

(** ** More on one call of [get_next_paragraph] *)

Lemma get_remaining_content (self : Document.t) (k : Z) :
  0 <= Document.current_position self <= len (Document.content self) ->
  0 <= k < len (Document.remaining_content self) ->
  get (Document.remaining_content self) k
    = get (Document.content self) (Document.current_position self + k).
Proof.
  intros Hpos Hk. unfold Document.remaining_content in *.
  rewrite len_slice_from in Hk by assumption.
  unfold slice_from. apply get_slice; lia.
Qed.

Lemma get_Some_lt (s : str) (k : Z) (c : char) :
  0 <= k -> get s k = Some c -> k < len s.
Proof.
  intros Hk Hget. rewrite get_nth_error in Hget by assumption.
  assert (Hlt : (Z.to_nat k < length s)%nat)
    by (apply nth_error_Some; congruence).
  unfold len. lia.
Qed.

(** What a natural boundary at index [j] is. *)
Lemma natural_boundary_inv (remaining_content : str) (min_length j : Z) :
  0 <= j ->
  natural_boundary remaining_content min_length j = true ->
  j + 1 < len remaining_content /\
  min_length <= j + 1 /\
  exists c b,
    get remaining_content j = Some c /\ Document.is_sentence_mark c = true /\
    get remaining_content (j + 1) = Some b /\ (b = space \/ b = newline).
Proof.
  intros Hj. unfold natural_boundary, Document.followed_by_break.
  destruct (get remaining_content j) as [c|]; cbv iota beta; [|discriminate].
  destruct (get remaining_content (j + 1)) as [b|]; cbv iota beta;
    [|rewrite !andb_false_r; discriminate].
  intros H. apply andb_prop in H as [H Hmin]. apply andb_prop in H as [Hmark H].
  apply andb_prop in H as [Hlt Hbreak].
  apply Z.ltb_lt in Hlt. apply Z.leb_le in Hmin.
  split; [assumption|]. split; [assumption|].
  exists c, b. repeat split; try assumption.
  apply orb_prop in Hbreak as [H|H]; apply N.eqb_eq in H; auto.
Qed.

(** X1: the cut is never later than the first natural boundary: a sentence
    mark at index [j] of the text left, followed by a space or a newline
    and at least [min_length] characters in, bounds the new position by
    the index after the mark. *)
Theorem X1_cut_not_after_a_natural_boundary
    (self : Document.t) (min_length max_length j : Z) :
  0 <= Document.current_position self < len (Document.content self) ->
  0 <= j ->
  natural_boundary (Document.remaining_content self) min_length j = true ->
  new_position self min_length max_length
    <= Document.current_position self + j + 1.
Proof.
  intros Hpos Hj Hnat. rewrite new_position_inner by apply Hpos.
  destruct (natural_boundary_inv _ _ j Hj Hnat) as (Hlt & _).
  destruct (paragraph_end_cases self min_length max_length)
    as [[_ Hall]|(j' & Hj' & Hbefore & Hat)].
  - specialize (Hall j ltac:(lia)). destruct Hall as [Hf _]. congruence.
  - assert (Hle : j' <= j).
    { destruct (Z.le_gt_cases j' j) as [|Hgt]; [assumption|].
      specialize (Hbefore j ltac:(lia)). destruct Hbefore as [Hf _]. congruence. }
    destruct Hat as [[_ ->]|(_ & _ & ->)]; [lia|].
    pose proof (hard_cap_end_bounds (Document.current_position self)
                  (Document.remaining_content self) j' Hj'). lia.
Qed.

Lemma X1_cut_witness :
  new_position scenario_A 10 500 <= Document.current_position scenario_A + 11 + 1.
Proof.
  apply (X1_cut_not_after_a_natural_boundary scenario_A 10 500 11).
  - vm_compute. split; [discriminate|reflexivity].
  - lia.
  - reflexivity.
Defined.

Lemma paragraph_end_at_least (self : Document.t) (min_length max_length : Z) :
  0 <= Document.current_position self < len (Document.content self) ->
  new_position self min_length max_length < len (Document.content self) ->
  Z.min min_length (max_length - 101)
    <= new_position self min_length max_length - Document.current_position self.
Proof.
  intros Hpos. rewrite new_position_inner by apply Hpos. intros Hnew.
  destruct (paragraph_end_cases self min_length max_length)
    as [[Heq _]|(j & Hj & _ & [[Hnat ->]|(_ & Hmax & ->)])].
  - lia.
  - destruct (natural_boundary_inv _ _ j ltac:(lia) Hnat) as (_ & Hmin & _). lia.
  - pose proof (hard_cap_end_bounds (Document.current_position self)
                  (Document.remaining_content self) j Hj). lia.
Qed.

(** X2: a call that does not reach the end of the text moves the cursor by
    at least [min_length] characters, or by at least [max_length - 101]
    when it stops at the maximum length; with the defaults that is at
    least 100 characters. *)
Theorem X2_advance_of_a_call_that_is_not_final
    (self : Document.t) (min_length max_length : Z) :
  0 <= Document.current_position self < len (Document.content self) ->
  new_position self min_length max_length < len (Document.content self) ->
  Z.min min_length (max_length - 101)
    <= new_position self min_length max_length - Document.current_position self.
Proof. exact (paragraph_end_at_least self min_length max_length). Qed.

Lemma X2_advance_witness :
  Z.min 100 (500 - 101)
    <= new_position scenario_B 100 500 - Document.current_position scenario_B.
Proof.
  apply (X2_advance_of_a_call_that_is_not_final scenario_B 100 500).
  - vm_compute. split; [discriminate|reflexivity].
  - vm_compute. reflexivity.
Defined.

(** X3: when fewer characters are left than both lengths ask for, the call
    returns all of them, stripped, says that the paragraph is final and
    puts the cursor at the end of the text, whatever the characters are. *)
Theorem X3_short_remainder_is_the_last_paragraph
    (self : Document.t) (min_length max_length : Z) :
  0 <= Document.current_position self < len (Document.content self) ->
  len (Document.content self) - Document.current_position self < min_length ->
  len (Document.content self) - Document.current_position self < max_length ->
  Document.get_next_paragraph self min_length max_length
    = ((strip (slice_from (Document.content self)
                          (Document.current_position self)), true),
       Document.set_current_position self (len (Document.content self))).
Proof.
  intros Hpos Hmin Hmax.
  pose proof (len_remaining self Hpos) as Hlen.
  assert (He : Document.paragraph_end_of self min_length max_length
               = len (Document.content self)).
  { destruct (paragraph_end_cases self min_length max_length)
      as [[Heq _]|(j & Hj & _ & [[Hnat _]|(_ & Hcap & _)])].
    - assumption.
    - destruct (natural_boundary_inv _ _ j ltac:(lia) Hnat) as (_ & Hm & _). lia.
    - lia. }
  rewrite get_next_paragraph_inner by apply Hpos.
  unfold raw_paragraph. rewrite He, Z.leb_refl. reflexivity.
Qed.

Lemma X3_short_remainder_witness :
  Document.get_next_paragraph two_letters 100 500
    = ((of_string "ab", true), Document.set_current_position two_letters 2).
Proof.
  rewrite (X3_short_remainder_is_the_last_paragraph two_letters 100 500).
  - reflexivity.
  - vm_compute. split; [discriminate|reflexivity].
  - vm_compute. reflexivity.
  - vm_compute. reflexivity.
Defined.

(** X4: where a cut falls.  With a maximum length of at least 1 the new
    position is the end of the text, or the index after a sentence mark
    that a space or newline follows, at least [min_length] characters on,
    or a space among the last 101 characters of the first [max_length], or
    exactly [max_length] characters after the cursor. *)
Theorem X4_where_a_cut_falls (self : Document.t) (min_length max_length : Z) :
  0 <= Document.current_position self < len (Document.content self) ->
  1 <= max_length ->
  let position := Document.current_position self in
  let text := Document.content self in
  let cut := new_position self min_length max_length in
  cut = len text \/
  (exists c b,
     get text (cut - 1) = Some c /\ Document.is_sentence_mark c = true /\
     get text cut = Some b /\ (b = space \/ b = newline) /\
     min_length <= cut - position) \/
  (get text cut = Some space /\
   position <= cut /\ position + max_length - 101 <= cut < position + max_length) \/
  cut = position + max_length.
Proof.
  intros Hpos Hmax. cbv zeta. rewrite new_position_inner by apply Hpos.
  pose proof (len_remaining self Hpos) as Hlen.
  destruct (paragraph_end_cases self min_length max_length)
    as [[Heq _]|(j & Hj & Hbefore & Hat)]; [left; assumption|right].
  destruct Hat as [[Hnat ->]|(_ & Hcap & ->)].
  - left. destruct (natural_boundary_inv _ _ j ltac:(lia) Hnat)
      as (Hlt & Hmin & c & b & Hc & Hmark & Hb & Hbreak).
    rewrite get_remaining_content in Hc, Hb by lia.
    exists c, b.
    replace (Document.current_position self + j + 1 - 1)
      with (Document.current_position self + j) by lia.
    replace (Document.current_position self + j + 1)
      with (Document.current_position self + (j + 1)) by lia.
    repeat split; try assumption. lia.
  - right.
    assert (Hjeq : j + 1 = max_length).
    { destruct (Z.eq_dec j 0) as [->|Hne]; [lia|].
      specialize (Hbefore (j - 1) ltac:(lia)). lia. }
    destruct (hard_cap_end_spec (Document.current_position self)
                (Document.remaining_content self) j Hj)
      as [[_ ->]|(k & Hk & Hspace & _ & ->)]; [right; lia|left].
    rewrite get_remaining_content in Hspace by lia.
    split; [assumption|]. lia.
Qed.

Lemma X4_cut_witness :
  new_position space_at_399 100 500 = len (Document.content space_at_399) \/
  (exists c b,
     get (Document.content space_at_399)
         (new_position space_at_399 100 500 - 1) = Some c /\
     Document.is_sentence_mark c = true /\
     get (Document.content space_at_399)
         (new_position space_at_399 100 500) = Some b /\
     (b = space \/ b = newline) /\
     100 <= new_position space_at_399 100 500
            - Document.current_position space_at_399) \/
  (get (Document.content space_at_399) (new_position space_at_399 100 500)
     = Some space /\
   Document.current_position space_at_399 <= new_position space_at_399 100 500 /\
   Document.current_position space_at_399 + 500 - 101
     <= new_position space_at_399 100 500
     < Document.current_position space_at_399 + 500) \/
  new_position space_at_399 100 500
    = Document.current_position space_at_399 + 500.
Proof.
  apply (X4_where_a_cut_falls space_at_399 100 500).
  - vm_compute. split; [discriminate|reflexivity].
  - lia.
Defined.

(** ** What [strip] removes *)

Lemma lstrip_spec (s : str) :
  exists l, s = l ++ lstrip s /\
    Forall (fun c => isspace c = true) l /\
    forall c, hd_error (lstrip s) = Some c -> isspace c = false.
Proof.
  induction s as [|x s (l & Heq & Hl & Hhd)].
  - exists []. repeat split; [constructor|]. discriminate.
  - cbn [lstrip]. destruct (isspace x) eqn:Hx.
    + exists (x :: l). split; [cbn; f_equal; exact Heq|].
      split; [constructor; assumption|exact Hhd].
    + exists []. repeat split; [constructor|].
      intros c Hc. cbn in Hc. congruence.
Qed.

Lemma rstrip_spec (s : str) :
  exists r, s = rstrip s ++ r /\
    Forall (fun c => isspace c = true) r /\
    forall c, hd_error (rev (rstrip s)) = Some c -> isspace c = false.
Proof.
  unfold rstrip. destruct (lstrip_spec (rev s)) as (l & Heq & Hl & Hhd).
  exists (rev l). split; [|split].
  - rewrite <- rev_app_distr, <- Heq, rev_involutive. reflexivity.
  - apply Forall_rev. assumption.
  - rewrite rev_involutive. exact Hhd.
Qed.

(** [strip] takes whitespace off the two ends and leaves no whitespace there. *)
Lemma strip_spec (s : str) :
  exists l r, s = l ++ strip s ++ r /\
    Forall (fun c => isspace c = true) l /\
    Forall (fun c => isspace c = true) r /\
    (forall c, hd_error (strip s) = Some c -> isspace c = false) /\
    (forall c, hd_error (rev (strip s)) = Some c -> isspace c = false).
Proof.
  unfold strip.
  destruct (lstrip_spec s) as (l & Hl & Hlspace & Hhd).
  destruct (rstrip_spec (lstrip s)) as (r & Hr & Hrspace & Hlast).
  exists l, r. split; [rewrite <- Hr; exact Hl|].
  repeat split; try assumption.
  intros c Hc. apply Hhd. rewrite Hr.
  destruct (rstrip (lstrip s)); [discriminate|exact Hc].
Qed.

(** X5: the paragraph a call returns is the text between the cursor before
    and after the call without the whitespace at its two ends: nothing
    else is taken away, and the paragraph neither begins nor ends with
    whitespace. *)
Theorem X5_paragraph_is_the_text_without_outer_whitespace
    (self : Document.t) (min_length max_length : Z) :
  Document.current_position self < len (Document.content self) ->
  let paragraph :=
    fst (fst (Document.get_next_paragraph self min_length max_length)) in
  exists l r,
    slice (Document.content self) (Document.current_position self)
          (new_position self min_length max_length) = l ++ paragraph ++ r /\
    Forall (fun c => isspace c = true) l /\
    Forall (fun c => isspace c = true) r /\
    (forall c, hd_error paragraph = Some c -> isspace c = false) /\
    (forall c, hd_error (rev paragraph) = Some c -> isspace c = false).
Proof.
  intros Hpos. cbv zeta. rewrite new_position_inner by assumption.
  rewrite get_next_paragraph_inner by assumption. cbn [fst].
  apply strip_spec.
Qed.

Lemma X5_paragraph_witness :
  exists l r,
    slice (Document.content (Document.set_current_position scenario_A 12))
          12 (new_position (Document.set_current_position scenario_A 12) 10 500)
      = l ++ of_string "This is a test of segmentation." ++ r /\
    Forall (fun c => isspace c = true) l /\
    Forall (fun c => isspace c = true) r.
Proof.
  destruct (X5_paragraph_is_the_text_without_outer_whitespace
              (Document.set_current_position scenario_A 12) 10 500 eq_refl)
    as (l & r & Heq & Hl & Hr & _).
  exists l, r. repeat split; assumption.
Defined.

(** ** The final paragraph and the number of paragraphs *)

(** X6: a call says that its paragraph is final exactly when it leaves the
    cursor at the end of the text, and every call after a final one
    returns ["Fin del documento."], final again, and changes nothing. *)
Theorem X6_final_means_the_end_is_reached
    (self : Document.t) (min_length max_length : Z) :
  valid_position self ->
  let '((paragraph, is_final), self') :=
    Document.get_next_paragraph self min_length max_length in
  (is_final = true <->
   Document.current_position self' = len (Document.content self')) /\
  (is_final = true ->
   forall min_length' max_length',
     Document.get_next_paragraph self' min_length' max_length'
       = ((Document.end_of_document, true), self')).
Proof.
  intros [H0 Hle].
  destruct (Z.eq_dec (Document.current_position self)
                     (len (Document.content self))) as [Hend|Hinner].
  - rewrite get_next_paragraph_terminal by lia. split; [tauto|].
    intros _ min' max'. apply get_next_paragraph_terminal. lia.
  - rewrite get_next_paragraph_inner by lia.
    pose proof (paragraph_end_bounds self min_length max_length ltac:(lia))
      as Hbounds.
    set (e := Document.paragraph_end_of self min_length max_length) in *.
    cbn [Document.current_position Document.content
         Document.set_current_position].
    split.
    + rewrite Z.leb_le. lia.
    + rewrite Z.leb_le. intros Hfin min' max'.
      apply get_next_paragraph_terminal. cbn. lia.
Qed.

Lemma X6_final_witness :
  Document.get_next_paragraph
    (snd (Document.get_next_paragraph two_letters 100 500)) 100 500
  = ((Document.end_of_document, true),
     snd (Document.get_next_paragraph two_letters 100 500)).
Proof.
  pose proof (X6_final_means_the_end_is_reached two_letters 100 500) as H.
  destruct (Document.get_next_paragraph two_letters 100 500)
    as [[paragraph is_final] self'] eqn:Hcall.
  assert (Hfinal : is_final = true) by (vm_compute in Hcall; congruence).
  apply H.
  - vm_compute. split; discriminate.
  - exact Hfinal.
Defined.

Lemma read_through_count (min_length max_length : Z) (fuel : nat) :
  forall (self : Document.t) (calls : list (Z * str * Z)),
  valid_position self ->
  1 <= max_length ->
  read_through fuel self min_length max_length = Some calls ->
  len (Document.content self) - Document.current_position self
    <= max_length * Z.of_nat (length calls) /\
  Z.min min_length (max_length - 101) * (Z.of_nat (length calls) - 1)
    <= len (Document.content self) - Document.current_position self.
Proof.
  induction fuel as [|fuel IH]; intros self calls Hvalid Hmax Hread;
    [discriminate|].
  cbn [read_through] in Hread. destruct Hvalid as [H0 Hle].
  destruct (Z.eq_dec (Document.current_position self)
                     (len (Document.content self))) as [Hend|Hne].
  - rewrite get_next_paragraph_terminal in Hread by lia.
    inversion Hread; subst calls. cbn [length]. lia.
  - rewrite get_next_paragraph_inner in Hread by lia.
    pose proof (paragraph_end_bounds self min_length max_length ltac:(lia))
      as Hbounds.
    pose proof (paragraph_end_span self min_length max_length ltac:(lia) Hmax)
      as Hspan.
    pose proof (paragraph_end_at_least self min_length max_length ltac:(lia))
      as Hleast.
    rewrite new_position_inner in Hleast by lia.
    set (e := Document.paragraph_end_of self min_length max_length) in *.
    cbn [Document.current_position Document.set_current_position] in Hread.
    destruct (Z.leb_spec (len (Document.content self)) e) as [Hfin|Hnot].
    + inversion Hread; subst calls. cbn [length]. lia.
    + destruct (read_through fuel (Document.set_current_position self e)
                  min_length max_length) as [calls'|] eqn:Hrest; [|discriminate].
      inversion Hread; subst calls.
      apply IH in Hrest; [|unfold valid_position; cbn; lia|assumption].
      cbn [Document.current_position Document.content
           Document.set_current_position] in Hrest.
      specialize (Hleast Hnot). cbn [length].
      rewrite Nat2Z.inj_succ. nia.
Qed.

(** X7: how many paragraphs a text takes.  Successive calls up to the
    final paragraph, with a maximum length of at least 1, are at least the
    characters left divided by [max_length], and all of them but the last
    cover at least [min (min_length, max_length - 101)] characters each:
    with the defaults a text of [n] characters is read in no fewer than
    [n / 500] and no more than [n / 100 + 1] paragraphs. *)
Theorem X7_number_of_paragraphs
    (self : Document.t) (min_length max_length : Z) (fuel : nat)
    (calls : list (Z * str * Z)) :
  valid_position self ->
  1 <= max_length ->
  read_through fuel self min_length max_length = Some calls ->
  len (Document.content self) - Document.current_position self
    <= max_length * Z.of_nat (length calls) /\
  Z.min min_length (max_length - 101) * (Z.of_nat (length calls) - 1)
    <= len (Document.content self) - Document.current_position self.
Proof. apply read_through_count. Qed.

Lemma X7_number_witness :
  exists calls,
    read_through 10 scenario_B 100 500 = Some calls /\
    600 <= 500 * Z.of_nat (length calls) /\
    100 * (Z.of_nat (length calls) - 1) <= 600.
Proof.
  eexists. split; [vm_compute; reflexivity|].
  apply (X7_number_of_paragraphs scenario_B 100 500 10).
  - vm_compute. split; discriminate.
  - lia.
  - vm_compute. reflexivity.
Defined.

(** ** Users *)

Lemma eqb_refl (s : str) : eqb s s = true.
Proof. induction s as [|c s IH]; [reflexivity|]. cbn. rewrite N.eqb_refl. exact IH. Qed.

Lemma eqb_eq (s t : str) : eqb s t = true -> s = t.
Proof.
  revert t. induction s as [|c s IH]; intros [|d t] H; try discriminate;
    [reflexivity|].
  cbn in H. apply andb_prop in H as [Hc Hs].
  apply N.eqb_eq in Hc. apply IH in Hs. congruence.
Qed.

Lemma find_app_l {A : Type} (p : A -> bool) (l l' : list A) (x : A) :
  find p l = Some x -> find p (l ++ l') = Some x.
Proof.
  induction l as [|y l IH]; [discriminate|]. cbn.
  destruct (p y); [trivial|exact IH].
Qed.

Lemma find_app_r {A : Type} (p : A -> bool) (l l' : list A) :
  find p l = None -> find p (l ++ l') = find p l'.
Proof.
  induction l as [|y l IH]; [reflexivity|]. cbn.
  destruct (p y); [discriminate|exact IH].
Qed.

Lemma find_all_false {A : Type} (p : A -> bool) (l : list A) :
  (forall x, In x l -> p x = false) -> find p l = None.
Proof.
  induction l as [|y l IH]; intros H; [reflexivity|]. cbn.
  rewrite (H y) by (left; reflexivity). apply IH.
  intros x Hx. apply H. right. assumption.
Qed.

Lemma find_map {A : Type} (p q : A -> bool) (g : A -> A) (l : list A) :
  (forall x, In x l -> p (g x) = q x) ->
  find p (map g l) = option_map g (find q l).
Proof.
  induction l as [|y l IH]; intros H; [reflexivity|]. cbn.
  rewrite (H y) by (left; reflexivity).
  destruct (q y); [reflexivity|]. apply IH.
  intros x Hx. apply H. right. assumption.
Qed.

(** A user that is looked up again is found as the same row. *)
Lemma get_or_create_user_again (db : Database) (telegram_id : str)
    (username first_name last_name : option str) (now : Z) :
  let '(user, db') :=
    get_or_create_user db telegram_id username first_name last_name now in
  find (fun u => eqb (User.telegram_id u) telegram_id) (users db') = Some user.
Proof.
  unfold get_or_create_user.
  destruct (find _ (users db)) as [user|] eqn:Hfind; [exact Hfind|].
  cbn [users]. rewrite find_app_r by assumption. cbn.
  rewrite eqb_refl. reflexivity.
Qed.

(** X8: [get_or_create_user] returns a user with the asked [telegram_id]
    who is in the table afterwards; the users there before stay, no
    document changes, and asking again, with whatever names, returns the
    same row and changes nothing: an existing user is never updated. *)
Theorem X8_get_or_create_user_finds_again
    (db : Database) (telegram_id : str)
    (username first_name last_name : option str) (now : Z) :
  let '(user, db') :=
    get_or_create_user db telegram_id username first_name last_name now in
  User.telegram_id user = telegram_id /\
  In user (users db') /\
  (forall u, In u (users db) -> In u (users db')) /\
  documents db' = documents db /\
  forall username' first_name' last_name' now',
    get_or_create_user db' telegram_id username' first_name' last_name' now'
      = (user, db').
Proof.
  pose proof (get_or_create_user_again db telegram_id username first_name
                last_name now) as Hagain.
  pose proof (get_or_create_user_documents db telegram_id username first_name
                last_name now) as Hdocs.
  assert (Hkeep : forall u, In u (users db) ->
            In u (users (snd (get_or_create_user db telegram_id username
                                first_name last_name now)))).
  { intros u Hu. unfold get_or_create_user.
    destruct (find _ (users db)); [exact Hu|].
    cbn. apply in_or_app. left. exact Hu. }
  destruct (get_or_create_user db telegram_id username first_name last_name now)
    as [user db']. cbn [snd] in *.
  pose proof (find_some _ _ Hagain) as [Hin Heq].
  split; [apply eqb_eq; exact Heq|]. split; [exact Hin|].
  split; [exact Hkeep|]. split; [exact Hdocs|].
  intros username' first_name' last_name' now'.
  unfold get_or_create_user. rewrite Hagain. reflexivity.
Qed.

(** X9: [get_or_create_user] keeps the keys of the user table distinct and
    the [telegram_id] unique. *)
Theorem X9_get_or_create_user_keeps_users_unique
    (db : Database) (telegram_id : str)
    (username first_name last_name : option str) (now : Z) :
  users_key db ->
  unique_telegram_id db ->
  let db' := snd (get_or_create_user db telegram_id username first_name
                                     last_name now) in
  users_key db' /\ unique_telegram_id db'.
Proof.
  intros Hkey Huniq. unfold get_or_create_user.
  destruct (find _ (users db)) as [user|] eqn:Hfind; [split; assumption|].
  cbn [snd]. split.
  - unfold users_key in *. cbn [users]. rewrite map_app. cbn [map User.id].
    apply NoDup_app; [exact Hkey|repeat constructor; intros []|].
    intros x Hx [<-|[]]. apply next_id_above in Hx. lia.
  - assert (Hfresh : forall u, In u (users db) -> User.telegram_id u <> telegram_id).
    { intros u Hu Heq. pose proof (find_none _ _ Hfind u Hu) as Hn.
      cbn beta in Hn. rewrite Heq, eqb_refl in Hn. discriminate. }
    intros u v Hu Hv Heq. cbn [users] in Hu, Hv.
    apply in_app_or in Hu as [Hu|[<-|[]]], Hv as [Hv|[<-|[]]].
    + apply Huniq; assumption.
    + exfalso. apply (Hfresh u Hu). exact Heq.
    + exfalso. apply (Hfresh v Hv). symmetry. exact Heq.
    + reflexivity.
Qed.

Lemma one_reader_users_key : users_key one_reader.
Proof. unfold users_key. cbn. repeat constructor. intros []. Qed.

Lemma one_reader_unique_telegram_id : unique_telegram_id one_reader.
Proof. intros u v [<-|[]] [<-|[]] _. reflexivity. Qed.

Lemma X9_users_unique_witness :
  users_key (snd (get_or_create_user one_reader (of_string "4712")
                    None None None 3)) /\
  unique_telegram_id (snd (get_or_create_user one_reader (of_string "4712")
                             None None None 3)).
Proof.
  apply (X9_get_or_create_user_keeps_users_unique one_reader (of_string "4712")
           None None None 3 one_reader_users_key one_reader_unique_telegram_id).
Defined.

(** ** Saving and activating, read back *)

Lemma save_document_read_back
    (db : Database) (user : User.t) (filename content : str) (now : Z) :
  let '(document, db') := save_document db user filename content now in
  get_active_document db' user = Some document /\
  Document.filename document = filename /\
  Document.content document = content /\
  Document.current_position document = 0 /\
  map reading (documents db') = map reading (documents db) ++ [reading document] /\
  users db' = users db.
Proof.
  unfold save_document, get_active_document. cbn [documents users].
  split.
  - rewrite find_app_r.
    + cbn. unfold owned_by at 1. cbn. rewrite Z.eqb_refl. reflexivity.
    + apply find_all_false. intros x Hx. apply in_map_iff in Hx as (d & <- & _).
      destruct (owned_by user d) eqn:Hown.
      * unfold owned_by in *. cbn. apply andb_false_r.
      * rewrite Hown. reflexivity.
  - repeat (split; [reflexivity|]). split; [|reflexivity].
    rewrite map_app, map_map. cbn [map]. f_equal.
    apply map_ext. intros d. destruct (owned_by user d); reflexivity.
Qed.

(** X10: after [save_document] the new document is what
    [get_active_document] finds for the user; it holds the file name and
    the text that were given, with the cursor at 0.  The rows that were
    there keep their text and their cursor, and no user changes. *)
Theorem X10_saved_document_is_the_active_one
    (db : Database) (user : User.t) (filename content : str) (now : Z) :
  let '(document, db') := save_document db user filename content now in
  get_active_document db' user = Some document /\
  Document.filename document = filename /\
  Document.content document = content /\
  Document.current_position document = 0 /\
  map reading (documents db') = map reading (documents db) ++ [reading document] /\
  users db' = users db.
Proof. exact (save_document_read_back db user filename content now). Qed.

Lemma activate_document_read_back
    (db : Database) (document_id : Z) (user : User.t) :
  let '(result, db') := activate_document db document_id user in
  map reading (documents db') = map reading (documents db) /\
  users db' = users db /\
  match result with
  | Some document =>
      get_active_document db' user = Some document /\
      Document.id document = document_id
  | None => db' = db
  end.
Proof.
  unfold activate_document.
  destruct (find _ (documents db)) as [document|] eqn:Hfind;
    [|repeat split].
  cbn [documents users]. split; [|split; [reflexivity|]].
  - rewrite map_map. apply map_ext. intros d.
    destruct (owned_by user d); reflexivity.
  - unfold get_active_document. cbn [documents].
    rewrite (find_map _ (fun d => (Document.id d =? document_id)
                                  && owned_by user d)).
    + rewrite Hfind. cbn [option_map].
      apply find_some in Hfind as [_ Hfound].
      apply andb_prop in Hfound as [Hid Hown]. rewrite Hown, Hid.
      apply Z.eqb_eq in Hid. split; [reflexivity|exact Hid].
    + intros x _. destruct (owned_by user x) eqn:Hown.
      * unfold owned_by in *. cbn. rewrite Hown. cbn. symmetry. apply andb_true_r.
      * rewrite Hown. cbn. symmetry. apply andb_false_r.
Qed.

(** X11: [activate_document] changes no text and no cursor, so a document
    that is switched away from and back to is read on where it was left;
    the document it returns is what [get_active_document] finds for the
    user afterwards, and without a result the database is as it was. *)
Theorem X11_activated_document_is_the_active_one
    (db : Database) (document_id : Z) (user : User.t) :
  let '(result, db') := activate_document db document_id user in
  map reading (documents db') = map reading (documents db) /\
  users db' = users db /\
  match result with
  | Some document =>
      get_active_document db' user = Some document /\
      Document.id document = document_id
  | None => db' = db
  end.
Proof. exact (activate_document_read_back db document_id user). Qed.

(** ** The cursor written back *)

Lemma find_update (p : Document.t -> bool) (l : list Document.t)
    (d d' : Document.t) :
  NoDup (map Document.id l) ->
  find p l = Some d ->
  Document.id d' = Document.id d ->
  p d' = true ->
  find p (map (fun x => if Document.id x =? Document.id d' then d' else x) l)
    = Some d'.
Proof.
  intros Hnd Hfind Hid Hp. rewrite Hid.
  induction l as [|x l IH]; [discriminate|].
  cbn in Hnd. inversion Hnd as [|? ? Hnotin Hnd']; subst.
  cbn [find map] in *. destruct (p x) eqn:Hpx.
  - inversion Hfind; subst x. rewrite Z.eqb_refl, Hp. reflexivity.
  - pose proof (find_some _ _ Hfind) as [Hin _].
    destruct (Z.eqb_spec (Document.id x) (Document.id d)) as [He|_].
    + exfalso. apply Hnotin. rewrite He. apply in_map. exact Hin.
    + rewrite Hpx. apply IH; assumption.
Qed.

Lemma find_update_other (p : Document.t -> bool) (l : list Document.t)
    (d d' : Document.t) :
  NoDup (map Document.id l) ->
  In d l ->
  Document.id d' = Document.id d ->
  p d = false -> p d' = false ->
  find p (map (fun x => if Document.id x =? Document.id d' then d' else x) l)
    = find p l.
Proof.
  intros Hnd Hin Hid Hp Hp'. rewrite Hid.
  assert (Hsame : forall x, In x l -> Document.id x = Document.id d -> x = d)
    by (intros x Hx He; apply (NoDup_map_eq Document.id l x d Hnd Hx Hin He)).
  clear Hnd Hin. induction l as [|x l IH]; [reflexivity|].
  cbn [find map].
  destruct (Z.eqb_spec (Document.id x) (Document.id d)) as [He|_].
  - rewrite (Hsame x (or_introl eq_refl) He), Hp, Hp'.
    apply IH. intros y Hy. apply Hsame. right. exact Hy.
  - destruct (p x); [reflexivity|].
    apply IH. intros y Hy. apply Hsame. right. exact Hy.
Qed.

(** The reader whose document was advanced finds it advanced. *)
Lemma get_active_document_updated (db : Database) (user : User.t)
    (d : Document.t) (p : Z) :
  primary_key db ->
  get_active_document db user = Some d ->
  get_active_document (update_document db (Document.set_current_position d p))
                      user
    = Some (Document.set_current_position d p).
Proof.
  intros Hkey Hactive. unfold get_active_document, update_document in *.
  cbn [documents]. apply find_update with (d := d); try assumption;
    [reflexivity|].
  apply find_some in Hactive as [_ Hp]. exact Hp.
Qed.

(** Another reader finds what he found before. *)
Lemma get_active_document_of_another (db : Database) (user other : User.t)
    (d : Document.t) (p : Z) :
  primary_key db ->
  get_active_document db other = Some d ->
  User.id user <> User.id other ->
  get_active_document (update_document db (Document.set_current_position d p))
                      user
    = get_active_document db user.
Proof.
  intros Hkey Hactive Hne. unfold get_active_document, update_document in *.
  cbn [documents].
  apply find_some in Hactive as [Hin Hp].
  apply andb_prop in Hp as [Hown _]. unfold owned_by in Hown.
  apply Z.eqb_eq in Hown.
  apply find_update_other with (d := d); try assumption; try reflexivity.
  - unfold owned_by. destruct (Z.eqb_spec (Document.user_id d) (User.id user));
      [congruence|reflexivity].
  - unfold owned_by. cbn.
    destruct (Z.eqb_spec (Document.user_id d) (User.id user));
      [congruence|reflexivity].
Qed.

Lemma valid_position_after (d : Document.t) (min_length max_length : Z) :
  valid_position d ->
  valid_position (snd (Document.get_next_paragraph d min_length max_length)).
Proof.
  intros Hvalid. rewrite get_next_paragraph_fields.
  pose proof (new_position_bounds d min_length max_length Hvalid) as Hb.
  unfold valid_position in *. cbn. lia.
Qed.

(** [next_paragraph_command] for a user who is in the table and has an
    active document inside its text. *)
Lemma next_paragraph_command_known (db : Database) (telegram_id : str)
    (now : Z) (user : User.t) (d : Document.t) :
  find (fun u => eqb (User.telegram_id u) telegram_id) (users db) = Some user ->
  get_active_document db user = Some d ->
  valid_position d ->
  exists view,
    next_paragraph_command db telegram_id now
      = (Fragment view,
         update_document db
           (snd (Document.get_next_paragraph d Document.default_min_length
                                             Document.default_max_length))) /\
    fragment view
      = fst (fst (Document.get_next_paragraph d Document.default_min_length
                                              Document.default_max_length)) /\
    is_final view
      = snd (fst (Document.get_next_paragraph d Document.default_min_length
                                              Document.default_max_length)) /\
    view_filename view = Document.filename d.
Proof.
  intros Hfind Hactive Hvalid.
  unfold next_paragraph_command, get_or_create_user. rewrite Hfind, Hactive.
  pose proof (valid_position_after d Document.default_min_length
                Document.default_max_length Hvalid) as Hvalid'.
  pose proof (get_next_paragraph_fields d Document.default_min_length
                Document.default_max_length) as Hfields.
  destruct (Document.get_next_paragraph d Document.default_min_length
              Document.default_max_length) as [[paragraph final] d'].
  cbn [fst snd] in *.
  destruct (get_progress_percentage_spec d' Hvalid') as (v & -> & _).
  eexists. split; [reflexivity|]. cbn.
  repeat split. rewrite Hfields. reflexivity.
Qed.

(** A command that registers the user first does what it does on the
    database with the user registered. *)
Lemma next_paragraph_command_registered (db : Database) (telegram_id : str)
    (now now' : Z) :
  next_paragraph_command db telegram_id now
    = next_paragraph_command
        (snd (get_or_create_user db telegram_id None None None now))
        telegram_id now'.
Proof.
  unfold next_paragraph_command.
  pose proof (get_or_create_user_again db telegram_id None None None now)
    as Hagain.
  destruct (get_or_create_user db telegram_id None None None now)
    as [user db1]. cbn [snd].
  unfold get_or_create_user. rewrite Hagain. reflexivity.
Qed.

(** X12: [next_paragraph_command] writes the new cursor back: afterwards
    the active document of the user is the one [get_next_paragraph] left,
    every row with another key is as it was and no user changes. *)
Theorem X12_next_paragraph_command_keeps_the_new_cursor
    (db : Database) (telegram_id : str) (now : Z) (d : Document.t) :
  primary_key db ->
  get_active_document
    (snd (get_or_create_user db telegram_id None None None now))
    (fst (get_or_create_user db telegram_id None None None now)) = Some d ->
  let db' := snd (next_paragraph_command db telegram_id now) in
  get_active_document db'
    (fst (get_or_create_user db telegram_id None None None now))
    = Some (snd (Document.get_next_paragraph d Document.default_min_length
                                             Document.default_max_length)) /\
  (forall x, In x (documents db) -> Document.id x <> Document.id d ->
             In x (documents db')) /\
  users db' = users (snd (get_or_create_user db telegram_id None None None now)).
Proof.
  intros Hkey Hactive. cbv zeta. unfold next_paragraph_command.
  pose proof (get_or_create_user_documents db telegram_id None None None now)
    as Hdocs.
  destruct (get_or_create_user db telegram_id None None None now)
    as [user db1]. cbn [fst snd] in *. rewrite Hactive.
  assert (Hkey1 : primary_key db1)
    by (unfold primary_key; rewrite Hdocs; exact Hkey).
  pose proof (get_next_paragraph_fields d Document.default_min_length
                Document.default_max_length) as Hfields.
  destruct (Document.get_next_paragraph d Document.default_min_length
              Document.default_max_length) as [[paragraph final] d'].
  cbn [snd] in *. subst d'.
  destruct (Document.get_progress_percentage _); cbn [snd];
    (split; [apply get_active_document_updated; assumption|]);
    (split; [|reflexivity]);
    intros x Hx Hne; unfold update_document; cbn [documents];
    apply in_map_iff; exists x; rewrite Hdocs; (split; [|exact Hx]);
    cbn [Document.id Document.set_current_position];
    (destruct (Z.eqb_spec (Document.id x) (Document.id d));
       [contradiction|reflexivity]).
Qed.

Lemma one_reader_active :
  get_active_document
    (snd (get_or_create_user one_reader (of_string "4711") None None None 7))
    (fst (get_or_create_user one_reader (of_string "4711") None None None 7))
  = Some (Document.set_current_position scenario_A 12).
Proof. reflexivity. Qed.

Lemma X12_new_cursor_witness :
  get_active_document
    (snd (next_paragraph_command one_reader (of_string "4711") 7)) reader
  = Some (Document.set_current_position scenario_A 53).
Proof.
  destruct (X12_next_paragraph_command_keeps_the_new_cursor one_reader
              (of_string "4711") 7 _ one_reader_key one_reader_active)
    as (Hactive & _).
  exact Hactive.
Defined.

(** X13: two commands of a reader, one after the other.  The first
    returns the paragraph at the cursor, the second the paragraph at the
    cursor the first one left, and afterwards the active document is the
    one two calls of [get_next_paragraph] give: no paragraph comes twice
    and none is passed over. *)
Theorem X13_two_commands_in_a_row
    (db : Database) (telegram_id : str) (now now' : Z) (d : Document.t) :
  primary_key db ->
  get_active_document
    (snd (get_or_create_user db telegram_id None None None now))
    (fst (get_or_create_user db telegram_id None None None now)) = Some d ->
  valid_position d ->
  let call1 := Document.get_next_paragraph d Document.default_min_length
                 Document.default_max_length in
  let call2 := Document.get_next_paragraph (snd call1)
                 Document.default_min_length Document.default_max_length in
  exists view1 db1 view2 db2,
    next_paragraph_command db telegram_id now = (Fragment view1, db1) /\
    next_paragraph_command db1 telegram_id now' = (Fragment view2, db2) /\
    fragment view1 = fst (fst call1) /\
    fragment view2 = fst (fst call2) /\
    get_active_document db2
      (fst (get_or_create_user db telegram_id None None None now))
      = Some (snd call2).
Proof.
  intros Hkey Hactive Hvalid. cbv zeta.
  rewrite (next_paragraph_command_registered db telegram_id now now).
  pose proof (get_or_create_user_again db telegram_id None None None now)
    as Hagain.
  pose proof (get_or_create_user_documents db telegram_id None None None now)
    as Hdocs.
  destruct (get_or_create_user db telegram_id None None None now)
    as [user db0]. cbn [fst snd] in *.
  assert (Hkey0 : primary_key db0)
    by (unfold primary_key; rewrite Hdocs; exact Hkey).
  destruct (next_paragraph_command_known db0 telegram_id now user d
              Hagain Hactive Hvalid) as (view1 & Hcmd1 & Hfrag1 & _).
  set (call1 := Document.get_next_paragraph d Document.default_min_length
                  Document.default_max_length) in *.
  pose proof (get_next_paragraph_fields d Document.default_min_length
                Document.default_max_length) as Hfields.
  fold call1 in Hfields.
  assert (Hactive1 : get_active_document (update_document db0 (snd call1)) user
                     = Some (snd call1))
    by (rewrite Hfields; apply get_active_document_updated; assumption).
  assert (Hkey1 : primary_key (update_document db0 (snd call1))).
  { apply (primary_key_flags db0); [|exact Hkey0]. rewrite Hfields.
    apply update_document_flags; [exact Hkey0|].
    apply find_some in Hactive as [Hin _]. exact Hin. }
  pose proof (valid_position_after d Document.default_min_length
                Document.default_max_length Hvalid) as Hvalid1.
  fold call1 in Hvalid1.
  destruct (next_paragraph_command_known (update_document db0 (snd call1))
              telegram_id now' user (snd call1) Hagain Hactive1 Hvalid1)
    as (view2 & Hcmd2 & Hfrag2 & _).
  exists view1, (update_document db0 (snd call1)), view2,
    (update_document (update_document db0 (snd call1))
       (snd (Document.get_next_paragraph (snd call1)
               Document.default_min_length Document.default_max_length))).
  split; [exact Hcmd1|]. split; [exact Hcmd2|].
  split; [exact Hfrag1|]. split; [exact Hfrag2|].
  rewrite (get_next_paragraph_fields (snd call1)).
  apply get_active_document_updated; assumption.
Qed.

Lemma X13_two_commands_witness :
  exists view1 db1 view2 db2,
    next_paragraph_command one_reader (of_string "4711") 7
      = (Fragment view1, db1) /\
    next_paragraph_command db1 (of_string "4711") 8 = (Fragment view2, db2) /\
    fragment view1 = of_string "This is a test of segmentation. Goodbye!" /\
    fragment view2 = Document.end_of_document.
Proof.
  destruct (X13_two_commands_in_a_row one_reader (of_string "4711") 7 8 _
              one_reader_key one_reader_active)
    as (view1 & db1 & view2 & db2 & H1 & H2 & Hf1 & Hf2 & _).
  - vm_compute. split; discriminate.
  - exists view1, db1, view2, db2. repeat split; assumption.
Defined.

(** ** A document from upload to the first paragraph *)

Lemma get_progress_percentage_start (self : Document.t) :
  Document.current_position self = 0 ->
  Document.get_progress_percentage self = Some 0.
Proof.
  intros Hstart. unfold Document.get_progress_percentage.
  destruct (Document.content self) as [|c text]; [reflexivity|].
  rewrite Hstart.
  assert (Hlen : 0 < len (c :: text)) by (unfold len; cbn [length]; lia).
  destruct (len (c :: text)) as [|n|n]; try lia. reflexivity.
Qed.

Lemma status_command_known (db : Database) (telegram_id : str) (now : Z)
    (user : User.t) (d : Document.t) (v : Z) :
  find (fun u => eqb (User.telegram_id u) telegram_id) (users db) = Some user ->
  get_active_document db user = Some d ->
  Document.get_progress_percentage d = Some v ->
  status_command db telegram_id now
    = (Status (Document.filename d) v (Document.created_at d), db).
Proof.
  intros Hfind Hactive Hv.
  unfold status_command, get_or_create_user. rewrite Hfind, Hactive, Hv.
  reflexivity.
Qed.

(** X14: an upload that is taken.  With a file name in [.pdf] or [.epub]
    and an extracted text of at least 10 characters after [strip], the
    document is saved with the text as extracted and the cursor at 0 and
    is the active document of the sender; [status_command] then shows 0
    percent, and [next_paragraph_command] returns the first paragraph of
    the text. *)
Theorem X14_upload_then_read
    (lower : str -> str)
    (extract_text_from_pdf extract_text_from_epub : list Byte.byte -> str)
    (db : Database) (telegram_id file_name : str)
    (file_data : list Byte.byte) (now now' : Z) :
  endswith (lower file_name) (of_string ".pdf")
    || endswith (lower file_name) (of_string ".epub") = true ->
  10 <= len (strip (extract_text_from_document lower extract_text_from_pdf
                      extract_text_from_epub file_data file_name)) ->
  let text := extract_text_from_document lower extract_text_from_pdf
                extract_text_from_epub file_data file_name in
  let '(reply, db') :=
    handle_document_upload lower extract_text_from_pdf extract_text_from_epub
      db telegram_id file_name file_data now in
  exists document,
    reply = Saved document /\
    Document.content document = text /\
    Document.filename document = file_name /\
    Document.current_position document = 0 /\
    get_active_document db'
      (fst (get_or_create_user db telegram_id None None None now))
      = Some document /\
    status_command db' telegram_id now' = (Status file_name 0 now, db') /\
    exists view db'',
      next_paragraph_command db' telegram_id now' = (Fragment view, db'') /\
      fragment view
        = fst (fst (Document.get_next_paragraph (doc_of text 0)
                      Document.default_min_length Document.default_max_length)).
Proof.
  intros Hformat Hlong. cbv zeta. unfold handle_document_upload.
  rewrite Hformat. cbn [negb].
  set (text := extract_text_from_document lower extract_text_from_pdf
                 extract_text_from_epub file_data file_name) in *.
  clearbody text. pose proof (len_strip text) as Hstrip.
  assert (Htext : match text with [] => true | _ :: _ => false end = false).
  { destruct text; [|reflexivity]. exfalso. apply Hlong. reflexivity. }
  rewrite Htext. cbn [orb].
  destruct (Z.ltb_spec (len (strip text)) 10); [lia|].
  pose proof (get_or_create_user_again db telegram_id None None None now)
    as Hagain.
  destruct (get_or_create_user db telegram_id None None None now)
    as [user db1]. cbn [fst].
  pose proof (save_document_read_back db1 user file_name text now) as Hsave.
  destruct (save_document db1 user file_name text now) as [document db2] eqn:Hdoc.
  destruct Hsave as (Hactive & Hname & Hcontent & Hstart & _ & Husers).
  rewrite <- Husers in Hagain.
  exists document. repeat (split; [first [reflexivity|assumption]|]).
  split.
  - rewrite (status_command_known db2 telegram_id now' user document 0
               Hagain Hactive (get_progress_percentage_start document Hstart)).
    rewrite Hname. unfold save_document in Hdoc. inversion Hdoc. reflexivity.
  - assert (Hvalid : valid_position document).
    { unfold valid_position. rewrite Hstart.
      pose proof (len_nonneg (Document.content document)). lia. }
    destruct (next_paragraph_command_known db2 telegram_id now' user document
                Hagain Hactive Hvalid) as (view & Hcmd & Hfrag & _).
    exists view. eexists. split; [exact Hcmd|].
    rewrite Hfrag. unfold Document.get_next_paragraph.
    rewrite Hcontent, Hstart. cbn [doc_of Document.content Document.current_position].
    destruct (len text <=? 0); [reflexivity|].
    cbn [fst]. unfold Document.paragraph_end_of, Document.remaining_content.
    rewrite Hcontent, Hstart. reflexivity.
Qed.

(** A stand-in for an extractor that finds a sentence. *)
Lemma X14_upload_witness :
  exists document db',
    handle_document_upload lower_of_lowercase
      (fun _ => of_string "A short book.") five_characters
      one_reader (of_string "4712") (of_string "book.pdf") [] 5
      = (Saved document, db') /\
    status_command db' (of_string "4712") 6
      = (Status (of_string "book.pdf") 0 5, db').
Proof.
  pose proof (X14_upload_then_read lower_of_lowercase
                (fun _ => of_string "A short book.") five_characters
                one_reader (of_string "4712") (of_string "book.pdf") [] 5 6
                eq_refl) as H.
  cbv zeta in H.
  destruct (handle_document_upload _ _ _ _ _ _ _ _) as [reply db'].
  destruct H as (document & -> & _ & _ & _ & _ & Hstatus & _).
  - vm_compute. discriminate.
  - exists document, db'. split; [reflexivity|exact Hstatus].
Defined.

(** ** A user without a document *)

Lemma filter_all_false {A : Type} (p : A -> bool) (l : list A) :
  (forall x, In x l -> p x = false) -> filter p l = [].
Proof.
  induction l as [|y l IH]; intros H; [reflexivity|]. cbn.
  rewrite (H y) by (left; reflexivity). apply IH.
  intros x Hx. apply H. right. assumption.
Qed.

(** X15: the first command of someone the table does not know.  With the
    foreign key of the documents kept and every key of the user table below
    the largest one of SQLite, the user is added without a name under the
    key SQLite gives a new row (1 in an empty table, one more than the
    largest key otherwise), no document changes, and
    [next_paragraph_command], [status_command] and
    [switch_document_command] answer that there is no document. *)
Theorem X15_unknown_user_has_no_document
    (db : Database) (telegram_id : str) (now : Z) :
  foreign_key db ->
  rowids_left (map User.id (users db)) ->
  find (fun u => eqb (User.telegram_id u) telegram_id) (users db) = None ->
  let db' :=
    mkDatabase
      (users db ++ [User.mk (next_id (map User.id (users db))) telegram_id
                            None None None now])
      (documents db) in
  next_paragraph_command db telegram_id now = (NoActiveDocument, db') /\
  status_command db telegram_id now = (StatusNoActiveDocument, db') /\
  switch_document_command db telegram_id now = (NoDocuments, db').
Proof.
  intros Hforeign _ Hfind. cbv zeta.
  set (user := User.mk (next_id (map User.id (users db))) telegram_id
                       None None None now).
  assert (Hnone : forall d, In d (documents db) -> owned_by user d = false).
  { intros d Hd. destruct (Hforeign d Hd) as (u & Hu & Hid).
    unfold owned_by. apply Z.eqb_neq. rewrite Hid. unfold user. cbn [User.id].
    pose proof (next_id_above (map User.id (users db)) (User.id u)
                  (in_map User.id _ _ Hu)). lia. }
  unfold next_paragraph_command, status_command, switch_document_command,
    get_or_create_user. rewrite Hfind. fold user.
  unfold get_active_document, get_user_documents. cbn [documents].
  rewrite find_all_false
    by (intros d Hd; rewrite (Hnone d Hd); reflexivity).
  rewrite filter_all_false by exact Hnone.
  repeat split.
Qed.

Lemma one_reader_foreign_key : foreign_key one_reader.
Proof.
  intros d [<-|[]]. exists reader. split; [left; reflexivity|reflexivity].
Qed.

Lemma one_reader_rowids_left : rowids_left (map User.id (users one_reader)).
Proof. intros id [<-|[]]. reflexivity. Qed.

Lemma X15_unknown_user_witness :
  next_paragraph_command one_reader (of_string "4712") 3
    = (NoActiveDocument, two_readers).
Proof.
  apply (X15_unknown_user_has_no_document one_reader (of_string "4712") 3
           one_reader_foreign_key one_reader_rowids_left eq_refl).
Defined.

(** ** The status *)

(** X16: [status_command] changes no document.  When every cursor is
    inside its text it never fails, and the percentage it shows for the
    active document lies between 0 and 100. *)
Theorem X16_status_changes_no_document
    (db : Database) (telegram_id : str) (now : Z) :
  valid_cursors db ->
  let '(reply, db') := status_command db telegram_id now in
  documents db' = documents db /\
  match reply with
  | StatusNoActiveDocument => True
  | Status filename progress created_at =>
      0 <= progress <= 100 /\
      exists d, In d (documents db) /\ Document.active d = true /\
                filename = Document.filename d /\
                created_at = Document.created_at d
  | StatusRaised => False
  end.
Proof.
  intros Hvalid. unfold status_command.
  pose proof (get_or_create_user_documents db telegram_id None None None now)
    as Hdocs.
  destruct (get_or_create_user db telegram_id None None None now)
    as [user db1]. cbn [snd] in Hdocs.
  destruct (get_active_document db1 user) as [d|] eqn:Hactive;
    [|split; [exact Hdocs|exact I]].
  apply find_some in Hactive as [Hin Hp]. rewrite Hdocs in Hin.
  apply andb_prop in Hp as [_ Hact].
  destruct (get_progress_percentage_spec d (Hvalid d Hin)) as (v & -> & Hv & _).
  split; [exact Hdocs|]. split; [exact Hv|].
  exists d. repeat split; assumption.
Qed.

Lemma one_reader_valid_cursors : valid_cursors one_reader.
Proof. intros d [<-|[]]. vm_compute. split; discriminate. Qed.

Lemma X16_status_witness :
  documents (snd (status_command one_reader (of_string "4711") 9))
    = documents one_reader.
Proof.
  pose proof (X16_status_changes_no_document one_reader (of_string "4711") 9
                one_reader_valid_cursors) as H.
  destruct (status_command one_reader (of_string "4711") 9) as [reply db'].
  exact (proj1 H).
Defined.

(** ** The keyboard of the documents *)

Lemma keyboard_of_In (docs : list Document.t) : forall (keyboard : list Button),
  keyboard_of docs = Some keyboard ->
  map switch_to keyboard = map Document.id docs /\
  map marked keyboard = map Document.active docs /\
  map button_filename keyboard = map Document.filename docs /\
  forall b, In b keyboard ->
    exists d, In d docs /\ switch_to b = Document.id d /\
              button_filename b = Document.filename d /\
              Document.get_progress_percentage d = Some (button_progress b).
Proof.
  induction docs as [|doc docs IH]; intros keyboard Hk; cbn [keyboard_of] in Hk.
  - inversion Hk; subst. repeat split. intros b [].
  - destruct (Document.get_progress_percentage doc) as [v|] eqn:Hv;
      [|discriminate].
    destruct (keyboard_of docs) as [rest|]; [|discriminate].
    inversion Hk; subst keyboard. clear Hk.
    destruct (IH rest eq_refl) as (H1 & H2 & H3 & H4).
    cbn [map switch_to marked button_filename].
    rewrite H1, H2, H3. repeat split.
    intros b [<-|Hb].
    + exists doc. cbn. repeat split; [left; reflexivity|exact Hv].
    + destruct (H4 b Hb) as (d & Hd & Hrest). exists d.
      split; [right; exact Hd|exact Hrest].
Qed.

Lemma keyboard_of_total (docs : list Document.t) :
  (forall d, In d docs -> valid_position d) ->
  exists keyboard, keyboard_of docs = Some keyboard.
Proof.
  induction docs as [|doc docs IH]; intros Hvalid; [eexists; reflexivity|].
  cbn [keyboard_of].
  destruct (get_progress_percentage_spec doc (Hvalid doc (or_introl eq_refl)))
    as (v & -> & _).
  destruct IH as [rest ->]; [|eexists; reflexivity].
  intros d Hd. apply Hvalid. right. exact Hd.
Qed.

Lemma length_filter_maps {A B C : Type} (f : A -> C) (g : B -> C)
    (p : C -> bool) (l : list A) : forall l' : list B,
  map f l = map g l' ->
  length (filter (fun x => p (f x)) l) = length (filter (fun y => p (g y)) l').
Proof.
  induction l as [|x l IH]; intros [|y l'] H; try discriminate; [reflexivity|].
  cbn [map] in H. injection H as Hx Hl. cbn [filter]. rewrite Hx.
  destruct (p (g y)); cbn [length]; rewrite (IH l' Hl); reflexivity.
Qed.

(** X17: the keyboard of [switch_document_command] and its callback.  The
    command changes no document.  With distinct keys and every cursor
    inside its text it never fails; the keyboard has one button for each
    document of the user, in the order of the table, with the file name
    and a percentage between 0 and 100, at most one of them marked as
    active when the user has at most one active document; and the key in
    each button makes [handle_switch_callback] activate the document with
    that key and file name. *)
Theorem X17_every_button_switches_to_its_document
    (db : Database) (telegram_id : str) (now : Z) :
  primary_key db ->
  valid_cursors db ->
  let user := fst (get_or_create_user db telegram_id None None None now) in
  let '(reply, db') := switch_document_command db telegram_id now in
  documents db' = documents db /\
  match reply with
  | NoDocuments => get_user_documents db' user = []
  | Keyboard buttons =>
      map switch_to buttons = map Document.id (get_user_documents db' user) /\
      map button_filename buttons
        = map Document.filename (get_user_documents db' user) /\
      (forall b, In b buttons -> 0 <= button_progress b <= 100) /\
      (at_most_one_active db -> (length (filter marked buttons) <= 1)%nat) /\
      (forall b now', In b buttons ->
         exists document db'',
           handle_switch_callback db' telegram_id (switch_to b) now'
             = (Some document, db'') /\
           Document.id document = switch_to b /\
           Document.filename document = button_filename b /\
           get_active_document db'' user = Some document)
  | SwitchRaised => False
  end.
Proof.
  intros Hkey Hvalid. cbv zeta. unfold switch_document_command.
  pose proof (get_or_create_user_documents db telegram_id None None None now)
    as Hdocs.
  pose proof (get_or_create_user_again db telegram_id None None None now)
    as Hagain.
  destruct (get_or_create_user db telegram_id None None None now)
    as [user db1]. cbn [fst snd] in *.
  assert (Hkey1 : primary_key db1)
    by (unfold primary_key; rewrite Hdocs; exact Hkey).
  destruct (get_user_documents db1 user) as [|doc docs] eqn:Hmine;
    [split; [exact Hdocs|exact Hmine]|].
  rewrite <- Hmine.
  destruct (keyboard_of_total (get_user_documents db1 user)) as [keyboard Hk].
  { intros d Hd. unfold get_user_documents in Hd.
    apply filter_In in Hd as [Hd _]. apply Hvalid. rewrite <- Hdocs. exact Hd. }
  rewrite Hk. split; [exact Hdocs|].
  destruct (keyboard_of_In _ _ Hk) as (Hids & Hmarks & Hnames & Hbuttons).
  split; [exact Hids|]. split; [exact Hnames|]. split; [|split].
  - intros b Hb. destruct (Hbuttons b Hb) as (d & Hd & _ & _ & Hv).
    unfold get_user_documents in Hd. apply filter_In in Hd as [Hd _].
    destruct (get_progress_percentage_spec d) as (v & Hv' & Hrange & _).
    + apply Hvalid. rewrite <- Hdocs. exact Hd.
    + congruence.
  - intros Hone.
    assert (Hsame : length (filter marked keyboard)
                    = length (filter (fun y => Document.active y)
                                     (get_user_documents db1 user)))
      by exact (length_filter_maps marked Document.active (fun m => m) keyboard
                  (get_user_documents db1 user) Hmarks).
    rewrite Hsame.
    unfold get_user_documents.
    specialize (Hone (User.id user)). unfold active_documents in Hone.
    rewrite <- Hdocs in Hone.
    assert (Heq : filter (fun y => Document.active y)
                    (filter (owned_by user) (documents db1))
                  = filter (fun d => (Document.user_id d =? User.id user)
                                     && Document.active d) (documents db1)).
    { clear. induction (documents db1) as [|d l IH]; [reflexivity|].
      cbn [filter]. unfold owned_by at 1.
      destruct (Document.user_id d =? User.id user); cbn [andb filter];
        [destruct (Document.active d)|]; rewrite IH; reflexivity. }
    rewrite Heq. exact Hone.
  - intros b now' Hb. destruct (Hbuttons b Hb) as (d & Hd & Hid & Hname & _).
    unfold get_user_documents in Hd. apply filter_In in Hd as [Hd Hown].
    unfold handle_switch_callback, get_or_create_user. rewrite Hagain.
    pose proof (activate_document_read_back db1 (switch_to b) user) as Hback.
    unfold activate_document in *.
    destruct (find _ (documents db1)) as [found|] eqn:Hfind.
    + apply find_some in Hfind as [Hin Hfound].
      apply andb_prop in Hfound as [Hfid _]. apply Z.eqb_eq in Hfid.
      assert (found = d)
        by (apply (NoDup_map_eq Document.id (documents db1)); try assumption;
            congruence).
      subst found. eexists. eexists. split; [reflexivity|].
      destruct Hback as (_ & _ & Hactive & _).
      cbn [Document.id Document.filename Document.set_active].
      repeat split; [congruence|congruence|exact Hactive].
    + exfalso. pose proof (find_none _ _ Hfind d Hd) as Hn. cbn beta in Hn.
      rewrite Hid, Z.eqb_refl, Hown in Hn. discriminate.
Qed.

Lemma X17_button_witness :
  documents (snd (switch_document_command one_reader (of_string "4711") 9))
    = documents one_reader.
Proof.
  pose proof (X17_every_button_switches_to_its_document one_reader
                (of_string "4711") 9 one_reader_key one_reader_valid_cursors)
    as H.
  cbv zeta in H.
  destruct (switch_document_command one_reader (of_string "4711") 9)
    as [reply db'].
  exact (proj1 H).
Defined.

(** ** The daily job *)

Lemma get_active_document_same_key (db : Database) (u v : User.t) :
  User.id u = User.id v ->
  get_active_document db u = get_active_document db v.
Proof.
  intros Hid. unfold get_active_document, owned_by. rewrite Hid. reflexivity.
Qed.

Lemma flat_map_ext_in {A B : Type} (f g : A -> list B) (l : list A) :
  (forall x, In x l -> f x = g x) -> flat_map f l = flat_map g l.
Proof.
  induction l as [|x l IH]; intros H; [reflexivity|]. cbn.
  rewrite (H x) by (left; reflexivity). f_equal. apply IH.
  intros y Hy. apply H. right. exact Hy.
Qed.

(** One turn: the message is the one of the turn run alone, and the
    database is the one with the document of the user read on. *)
Lemma daily_turn_eq (sent : list (str * FragmentView)) (db : Database)
    (user : User.t) :
  daily_turn (sent, db) user
    = (sent ++ daily_message db user,
       match get_active_document db user with
       | None => db
       | Some d => update_document db (read_on d)
       end).
Proof.
  unfold daily_message, daily_turn, read_on.
  destruct (get_active_document db user) as [d|];
    [|cbn; rewrite app_nil_r; reflexivity].
  destruct (Document.get_next_paragraph d Document.default_min_length
              Document.default_max_length) as [[paragraph final] d'].
  cbn [snd]. destruct (Document.get_progress_percentage d');
    cbn; rewrite ?app_nil_r; reflexivity.
Qed.

Lemma daily_message_same (db db' : Database) (user : User.t) :
  get_active_document db' user = get_active_document db user ->
  daily_message db' user = daily_message db user.
Proof.
  intros H. unfold daily_message, daily_turn. rewrite H.
  destruct (get_active_document db user) as [d|]; [|reflexivity].
  destruct (Document.get_next_paragraph d Document.default_min_length
              Document.default_max_length) as [[paragraph final] d'].
  destruct (Document.get_progress_percentage d'); reflexivity.
Qed.

(** The database after one turn. *)
Lemma daily_turn_database (db : Database) (user : User.t) :
  primary_key db ->
  let db' := match get_active_document db user with
             | None => db
             | Some d => update_document db (read_on d)
             end in
  primary_key db' /\
  users db' = users db /\
  map flags (documents db') = map flags (documents db) /\
  get_active_document db' user
    = option_map read_on (get_active_document db user) /\
  forall other, User.id other <> User.id user ->
    get_active_document db' other = get_active_document db other.
Proof.
  intros Hkey. cbv zeta.
  destruct (get_active_document db user) as [d|] eqn:Hactive;
    [|repeat split; assumption].
  cbn [option_map].
  assert (Hread : read_on d
                  = Document.set_current_position d
                      (new_position d Document.default_min_length
                         Document.default_max_length))
    by (unfold read_on; apply get_next_paragraph_fields).
  rewrite Hread.
  assert (Hflags : map flags (documents (update_document db
                     (Document.set_current_position d
                        (new_position d Document.default_min_length
                           Document.default_max_length))))
                   = map flags (documents db)).
  { apply update_document_flags; [exact Hkey|].
    apply find_some in Hactive as [Hin _]. exact Hin. }
  split; [apply (primary_key_flags db); assumption|].
  split; [reflexivity|]. split; [exact Hflags|]. split.
  - apply get_active_document_updated; assumption.
  - intros other Hne.
    apply get_active_document_of_another with (other := user); assumption.
Qed.

(** The job over the users [us], from the messages [sent] and the
    database [db]. *)
Lemma daily_fold (us : list User.t) :
  forall (sent : list (str * FragmentView)) (db : Database),
  primary_key db ->
  NoDup (map User.id us) ->
  let result := fold_left daily_turn us (sent, db) in
  fst result = sent ++ flat_map (daily_message db) us /\
  primary_key (snd result) /\
  users (snd result) = users db /\
  map flags (documents (snd result)) = map flags (documents db) /\
  (forall u, In (User.id u) (map User.id us) ->
     get_active_document (snd result) u
       = option_map read_on (get_active_document db u)) /\
  (forall u, ~ In (User.id u) (map User.id us) ->
     get_active_document (snd result) u = get_active_document db u).
Proof.
  induction us as [|w us IH]; intros sent db Hkey Hnd; cbv zeta.
  - cbn. rewrite app_nil_r. repeat split; try assumption. intros u [].
  - cbn [fold_left map flat_map] in *. rewrite daily_turn_eq.
    inversion Hnd as [|? ? Hnotin Hnd']; subst.
    destruct (daily_turn_database db w Hkey) as (Hkey1 & Husers & Hflags & Hw & Hother).
    set (db1 := match get_active_document db w with
                | None => db
                | Some d => update_document db (read_on d)
                end) in *.
    destruct (IH (sent ++ daily_message db w) db1 Hkey1 Hnd')
      as (Hsent & Hkey2 & Husers2 & Hflags2 & Hin2 & Hout2).
    assert (Hne : forall u, In (User.id u) (map User.id us) ->
                            User.id u <> User.id w)
      by (intros u Hu Heq; apply Hnotin; rewrite <- Heq; exact Hu).
    split; [|split; [exact Hkey2|split; [congruence|split; [congruence|split]]]].
    + rewrite Hsent, <- app_assoc. f_equal. f_equal.
      apply flat_map_ext_in. intros u Hu. apply daily_message_same.
      apply Hother. apply Hne. apply in_map. exact Hu.
    + intros u [Hu|Hu].
      * rewrite Hout2 by (rewrite <- Hu; exact Hnotin).
        rewrite (get_active_document_same_key db1 u w) by congruence.
        rewrite (get_active_document_same_key db u w) by congruence.
        exact Hw.
      * rewrite Hin2 by exact Hu. rewrite Hother by (apply Hne; exact Hu).
        reflexivity.
    + intros u Hu. rewrite Hout2 by (intros H; apply Hu; right; exact H).
      apply Hother. intros Heq. apply Hu. left. symmetry. exact Heq.
Qed.

(** X18: the daily job reads every active document on by one paragraph,
    once.  With distinct keys in both tables, afterwards each user finds
    as active document the one he had, after one call of
    [get_next_paragraph] with the default lengths; who had none has none;
    no user and no flag of a document changes, so the keys stay distinct
    and no user gets a second active document. *)
Theorem X18_daily_job_reads_on_once (db : Database) :
  primary_key db ->
  users_key db ->
  let db' := snd (send_daily_paragraph db) in
  users db' = users db /\
  map flags (documents db') = map flags (documents db) /\
  primary_key db' /\
  (at_most_one_active db -> at_most_one_active db') /\
  forall u, In u (users db) ->
    get_active_document db' u = option_map read_on (get_active_document db u).
Proof.
  intros Hkey Husers. cbv zeta. unfold send_daily_paragraph.
  destruct (daily_fold (users db) [] db Hkey Husers)
    as (_ & Hkey' & Hu & Hflags & Hin & _).
  split; [exact Hu|]. split; [exact Hflags|]. split; [exact Hkey'|].
  split; [apply at_most_one_active_flags; exact Hflags|].
  intros u Hu'. apply Hin. apply in_map. exact Hu'.
Qed.

Lemma two_readers_key : primary_key two_readers.
Proof. unfold primary_key. cbn. repeat constructor. intros []. Qed.

Lemma two_readers_users_key : users_key two_readers.
Proof.
  unfold users_key. cbn. repeat constructor; cbn; [|tauto].
  intros [H|[]]. discriminate.
Qed.

Lemma X18_daily_job_witness :
  get_active_document (snd (send_daily_paragraph two_readers)) reader
    = Some (Document.set_current_position scenario_A 53) /\
  get_active_document (snd (send_daily_paragraph two_readers)) newcomer = None.
Proof.
  destruct (X18_daily_job_reads_on_once two_readers two_readers_key
              two_readers_users_key) as (_ & _ & _ & _ & H).
  split.
  - rewrite (H reader) by (left; reflexivity). reflexivity.
  - rewrite (H newcomer) by (right; left; reflexivity). reflexivity.
Defined.

(** X19: the messages of the daily job.  With distinct keys in both
    tables the job hands over, in the order of the user table, the message
    each user's turn gives when run alone on the database of the start:
    none for a user without an active document, and for a user whose
    active document has its cursor inside the text one message to his
    chat with the paragraph at that cursor.  One user's turn changes no
    other user's message. *)
Theorem X19_daily_job_messages (db : Database) :
  primary_key db ->
  users_key db ->
  fst (send_daily_paragraph db) = flat_map (daily_message db) (users db) /\
  forall u,
    match get_active_document db u with
    | None => daily_message db u = []
    | Some d =>
        valid_position d ->
        exists view,
          daily_message db u = [(User.telegram_id u, view)] /\
          fragment view
            = fst (fst (Document.get_next_paragraph d
                          Document.default_min_length
                          Document.default_max_length)) /\
          view_filename view = Document.filename d /\
          0 <= progress view <= 100
    end.
Proof.
  intros Hkey Husers. split.
  - unfold send_daily_paragraph.
    destruct (daily_fold (users db) [] db Hkey Husers) as (Hsent & _).
    exact Hsent.
  - intros u. unfold daily_message, daily_turn.
    destruct (get_active_document db u) as [d|]; [|reflexivity].
    intros Hvalid.
    pose proof (valid_position_after d Document.default_min_length
                  Document.default_max_length Hvalid) as Hvalid'.
    pose proof (get_next_paragraph_fields d Document.default_min_length
                  Document.default_max_length) as Hfields.
    destruct (Document.get_next_paragraph d Document.default_min_length
                Document.default_max_length) as [[paragraph final] d'].
    cbn [fst snd] in *.
    destruct (get_progress_percentage_spec d' Hvalid') as (v & -> & Hv & _).
    eexists. split; [reflexivity|]. cbn.
    repeat split; try lia. rewrite Hfields. reflexivity.
Qed.

Lemma X19_daily_messages_witness :
  map fst (fst (send_daily_paragraph two_readers)) = [of_string "4711"].
Proof.
  destruct (X19_daily_job_messages two_readers two_readers_key
              two_readers_users_key) as (-> & _).
  reflexivity.
Defined.

(** ** Cursors stay inside their texts *)

Lemma valid_cursors_same_documents (db db' : Database) :
  documents db' = documents db -> valid_cursors db -> valid_cursors db'.
Proof. intros H Hvalid d Hd. apply Hvalid. rewrite <- H. exact Hd. Qed.

Lemma valid_cursors_update (db : Database) (d' : Document.t) :
  valid_cursors db -> valid_position d' ->
  valid_cursors (update_document db d').
Proof.
  intros Hvalid Hd' d Hd. unfold update_document in Hd. cbn [documents] in Hd.
  apply in_map_iff in Hd as (x & <- & Hx).
  destruct (Document.id x =? Document.id d'); [exact Hd'|apply Hvalid; exact Hx].
Qed.

Lemma valid_cursors_save (db : Database) (user : User.t)
    (filename content : str) (now : Z) :
  valid_cursors db ->
  valid_cursors (snd (save_document db user filename content now)).
Proof.
  intros Hvalid d Hd. unfold save_document in Hd. cbn [snd documents] in Hd.
  apply in_app_or in Hd as [Hd|[<-|[]]].
  - apply in_map_iff in Hd as (x & <- & Hx). specialize (Hvalid x Hx).
    destruct (owned_by user x); exact Hvalid.
  - unfold valid_position. cbn. pose proof (len_nonneg content). lia.
Qed.

Lemma valid_cursors_activate (db : Database) (document_id : Z) (user : User.t) :
  valid_cursors db ->
  valid_cursors (snd (activate_document db document_id user)).
Proof.
  intros Hvalid. unfold activate_document.
  destruct (find _ (documents db)); [|exact Hvalid].
  intros d Hd. cbn [snd documents] in Hd.
  apply in_map_iff in Hd as (x & <- & Hx). specialize (Hvalid x Hx).
  destruct (owned_by user x); exact Hvalid.
Qed.

Lemma valid_cursors_daily (us : list User.t) :
  forall (sent : list (str * FragmentView)) (db : Database),
  valid_cursors db ->
  valid_cursors (snd (fold_left daily_turn us (sent, db))).
Proof.
  induction us as [|w us IH]; intros sent db Hvalid; [exact Hvalid|].
  cbn [fold_left]. rewrite daily_turn_eq. apply IH.
  destruct (get_active_document db w) as [d|] eqn:Hactive; [|exact Hvalid].
  apply valid_cursors_update; [exact Hvalid|].
  apply valid_position_after. apply Hvalid.
  apply find_some in Hactive as [Hin _]. exact Hin.
Qed.

(** X20: every operation keeps every cursor between 0 and the length of
    its text: saving and activating a document, the callback of a switch,
    the command for the next paragraph, an upload, the daily job, and the
    commands that only read. *)
Theorem X20_cursors_stay_inside_their_texts (db : Database) :
  valid_cursors db ->
  (forall user filename content now,
     valid_cursors (snd (save_document db user filename content now))) /\
  (forall document_id user,
     valid_cursors (snd (activate_document db document_id user))) /\
  (forall telegram_id document_id now,
     valid_cursors
       (snd (handle_switch_callback db telegram_id document_id now))) /\
  (forall telegram_id now,
     valid_cursors (snd (next_paragraph_command db telegram_id now))) /\
  (forall lower extract_text_from_pdf extract_text_from_epub
          telegram_id file_name file_data now,
     valid_cursors
       (snd (handle_document_upload lower extract_text_from_pdf
               extract_text_from_epub db telegram_id file_name file_data now))) /\
  valid_cursors (snd (send_daily_paragraph db)) /\
  (forall telegram_id now,
     valid_cursors (snd (status_command db telegram_id now)) /\
     valid_cursors (snd (switch_document_command db telegram_id now))) /\
  (forall telegram_id username first_name last_name now,
     valid_cursors (start db telegram_id username first_name last_name now)).
Proof.
  intros Hvalid.
  assert (Huser : forall telegram_id username first_name last_name now,
            valid_cursors (snd (get_or_create_user db telegram_id username
                                  first_name last_name now))).
  { intros. apply (valid_cursors_same_documents db); [|exact Hvalid].
    apply get_or_create_user_documents. }
  split; [intros; apply valid_cursors_save; exact Hvalid|].
  split; [intros; apply valid_cursors_activate; exact Hvalid|].
  split; [|split; [|split; [|split; [|split]]]].
  - intros telegram_id document_id now. unfold handle_switch_callback.
    specialize (Huser telegram_id None None None now).
    destruct (get_or_create_user db telegram_id None None None now)
      as [user db1]. apply valid_cursors_activate. exact Huser.
  - intros telegram_id now. unfold next_paragraph_command.
    specialize (Huser telegram_id None None None now).
    destruct (get_or_create_user db telegram_id None None None now)
      as [user db1]. cbn [snd] in Huser.
    destruct (get_active_document db1 user) as [d|] eqn:Hactive;
      [|exact Huser].
    pose proof (valid_position_after d Document.default_min_length
                  Document.default_max_length) as Hafter.
    destruct (Document.get_next_paragraph d Document.default_min_length
                Document.default_max_length) as [[paragraph final] d'].
    cbn [snd] in Hafter.
    assert (Hd' : valid_position d').
    { apply Hafter. apply Huser. apply find_some in Hactive as [Hin _].
      exact Hin. }
    destruct (Document.get_progress_percentage d'); cbn [snd];
      apply valid_cursors_update; assumption.
  - intros lower pdf epub telegram_id file_name file_data now.
    unfold handle_document_upload.
    destruct (negb _); [exact Hvalid|].
    destruct (_ || _); [exact Hvalid|].
    specialize (Huser telegram_id None None None now).
    destruct (get_or_create_user db telegram_id None None None now)
      as [user db1]. cbn [snd] in Huser.
    pose proof (valid_cursors_save db1 user file_name
                  (extract_text_from_document lower pdf epub file_data file_name)
                  now Huser) as Hsave.
    destruct (save_document db1 user file_name _ now) as [document db2].
    exact Hsave.
  - unfold send_daily_paragraph. apply valid_cursors_daily. exact Hvalid.
  - intros telegram_id now.
    specialize (Huser telegram_id None None None now).
    unfold status_command, switch_document_command.
    destruct (get_or_create_user db telegram_id None None None now)
      as [user db1]. cbn [snd] in Huser. split.
    + destruct (get_active_document db1 user) as [d|]; [|exact Huser].
      destruct (Document.get_progress_percentage d); exact Huser.
    + destruct (get_user_documents db1 user) as [|doc docs]; [exact Huser|].
      destruct (keyboard_of (doc :: docs)); exact Huser.
  - intros. unfold start. apply Huser.
Qed.

Lemma X20_cursors_witness :
  valid_cursors (snd (send_daily_paragraph one_reader)) /\
  valid_cursors (snd (next_paragraph_command one_reader (of_string "4711") 7)).
Proof.
  destruct (X20_cursors_stay_inside_their_texts one_reader
              one_reader_valid_cursors) as (_ & _ & _ & Hnext & _ & Hdaily & _).
  split; [exact Hdaily|apply Hnext].
Defined.

(** ** The text of a file *)

Lemma isspace_space : isspace space = true.
Proof. reflexivity. Qed.

Lemma sub_whitespace_head (text : str) (c : char) :
  hd_error (sub_whitespace true text) = Some c -> isspace c = false.
Proof.
  induction text as [|x text IH]; [discriminate|]. cbn [sub_whitespace].
  destruct (isspace x) eqn:Hx; [exact IH|].
  cbn. intros H. congruence.
Qed.

(** After the substitution every whitespace character is a space. *)
Lemma sub_whitespace_only_spaces (text : str) : forall (in_run : bool) (c : char),
  In c (sub_whitespace in_run text) -> isspace c = true -> c = space.
Proof.
  induction text as [|x text IH]; intros in_run c Hin Hc; [contradiction|].
  cbn [sub_whitespace] in Hin. destruct (isspace x) eqn:Hx.
  - destruct in_run; [exact (IH _ _ Hin Hc)|].
    destruct Hin as [<-|Hin]; [reflexivity|exact (IH _ _ Hin Hc)].
  - destruct Hin as [<-|Hin]; [congruence|exact (IH _ _ Hin Hc)].
Qed.

(** After the substitution no whitespace follows whitespace. *)
Lemma sub_whitespace_single (text : str) :
  forall (in_run : bool) (l : str) (c1 c2 : char) (r : str),
  sub_whitespace in_run text = l ++ c1 :: c2 :: r ->
  isspace c1 = true -> isspace c2 = false.
Proof.
  induction text as [|x text IH]; intros in_run l c1 c2 r Heq Hc1.
  - destruct l; discriminate.
  - cbn [sub_whitespace] in Heq. destruct (isspace x) eqn:Hx.
    + destruct in_run; [exact (IH _ _ _ _ _ Heq Hc1)|].
      destruct l as [|y l]; cbn in Heq; inversion Heq as [[H1 H2]].
      * apply (sub_whitespace_head text). rewrite H2. reflexivity.
      * exact (IH _ _ _ _ _ H2 Hc1).
    + destruct l as [|y l]; cbn in Heq; inversion Heq as [[H1 H2]].
      * congruence.
      * exact (IH _ _ _ _ _ H2 Hc1).
Qed.

(** A text that neither begins nor ends with whitespace is left as it is. *)
Lemma lstrip_id (s : str) :
  (forall c, hd_error s = Some c -> isspace c = false) -> lstrip s = s.
Proof.
  destruct s as [|x s]; [reflexivity|]. intros H. cbn.
  rewrite (H x eq_refl). reflexivity.
Qed.

Lemma strip_id (s : str) :
  (forall c, hd_error s = Some c -> isspace c = false) ->
  (forall c, hd_error (rev s) = Some c -> isspace c = false) ->
  strip s = s.
Proof.
  intros Hhd Hlast. unfold strip, rstrip.
  rewrite (lstrip_id s Hhd), (lstrip_id (rev s) Hlast).
  apply rev_involutive.
Qed.

Lemma strip_strip (s : str) : strip (strip s) = strip s.
Proof.
  destruct (strip_spec s) as (l & r & _ & _ & _ & Hhd & Hlast).
  apply strip_id; assumption.
Qed.

(** What a normalised text looks like: [strip] after the substitution. *)
Lemma normalised_text (text : str) :
  let result := strip (sub_whitespace false text) in
  (forall c, In c result -> isspace c = true -> c = space) /\
  (forall l c1 c2 r, result = l ++ c1 :: c2 :: r ->
                     isspace c1 = true -> isspace c2 = false) /\
  (forall c, hd_error result = Some c -> isspace c = false) /\
  (forall c, hd_error (rev result) = Some c -> isspace c = false) /\
  ~ In newline result /\
  strip result = result.
Proof.
  cbv zeta.
  destruct (strip_spec (sub_whitespace false text))
    as (l0 & r0 & Heq & _ & _ & Hhd & Hlast).
  assert (Hin : forall c, In c (strip (sub_whitespace false text)) ->
                          In c (sub_whitespace false text)).
  { intros c Hc. rewrite Heq. apply in_or_app. right.
    apply in_or_app. left. exact Hc. }
  assert (Hspaces : forall c, In c (strip (sub_whitespace false text)) ->
                              isspace c = true -> c = space)
    by (intros c Hc; apply (sub_whitespace_only_spaces text false c (Hin c Hc))).
  repeat split; try assumption.
  - intros l c1 c2 r Hsplit.
    apply (sub_whitespace_single text false (l0 ++ l) c1 c2 (r ++ r0)).
    rewrite Heq at 1. rewrite Hsplit. rewrite <- !app_assoc. reflexivity.
  - intros Hnl. specialize (Hspaces newline Hnl eq_refl). discriminate.
  - apply strip_strip.
Qed.

(** X21: the text of a PDF file.  Whatever the pages hold, the extracted
    text has no whitespace but single spaces: a whitespace character in it
    is a space, no whitespace follows whitespace, it neither begins nor
    ends with whitespace, and it has no newline, so that in such a text
    only a space can end a sentence for [get_next_paragraph].  The text of
    a chapter of an EPUB file is of the same form. *)
Theorem X21_extracted_text_is_single_spaced
    (pdf_pages : list Byte.byte -> option (list str))
    (file_data : list Byte.byte) (soup_text : str) :
  let text := extract_text_from_pdf pdf_pages file_data in
  let chapter := chapter_to_text soup_text in
  ((forall c, In c text -> isspace c = true -> c = space) /\
   (forall l c1 c2 r, text = l ++ c1 :: c2 :: r ->
                      isspace c1 = true -> isspace c2 = false) /\
   (forall c, hd_error text = Some c -> isspace c = false) /\
   (forall c, hd_error (rev text) = Some c -> isspace c = false) /\
   ~ In newline text /\
   strip text = text) /\
  ((forall c, In c chapter -> isspace c = true -> c = space) /\
   (forall l c1 c2 r, chapter = l ++ c1 :: c2 :: r ->
                      isspace c1 = true -> isspace c2 = false) /\
   (forall c, hd_error chapter = Some c -> isspace c = false) /\
   (forall c, hd_error (rev chapter) = Some c -> isspace c = false) /\
   ~ In newline chapter /\
   strip chapter = chapter).
Proof.
  cbv zeta. split; [|apply normalised_text].
  unfold extract_text_from_pdf.
  destruct (pdf_pages file_data) as [pages|]; [apply normalised_text|].
  repeat split; try (intros; contradiction); try discriminate.
  - intros l c1 c2 r H. destruct l; discriminate.
  - intros [].
Qed.

(** ** Uploads with the extractors of the repository *)

Lemma extracted_text_is_stripped
    (lower : str -> str)
    (pdf_pages epub_documents : list Byte.byte -> option (list str))
    (file_data : list Byte.byte) (file_name : str) :
  let text := extract_text_from_document lower
                (extract_text_from_pdf pdf_pages)
                (extract_text_from_epub epub_documents) file_data file_name in
  strip text = text.
Proof.
  cbv zeta. unfold extract_text_from_document, extract_text_from_pdf,
    extract_text_from_epub.
  destruct (endswith (lower file_name) (of_string ".pdf")).
  - destruct (pdf_pages file_data); [apply strip_strip|reflexivity].
  - destruct (endswith (lower file_name) (of_string ".epub")); [|reflexivity].
    destruct (epub_documents file_data); [apply strip_strip|reflexivity].
Qed.

(** X22: what an upload is answered with, for the extractors of the
    repository.  Their text is already stripped, so the answer depends on
    the file name and on the length of the text alone: a name in neither
    [.pdf] nor [.epub] is refused, a text of fewer than 10 characters is
    answered as a failed extraction, both without a change of the
    database, and a text of 10 characters or more is saved as it is. *)
Theorem X22_upload_by_file_name_and_length
    (lower : str -> str)
    (pdf_pages epub_documents : list Byte.byte -> option (list str))
    (db : Database) (telegram_id file_name : str)
    (file_data : list Byte.byte) (now : Z) :
  let text := extract_text_from_document lower
                (extract_text_from_pdf pdf_pages)
                (extract_text_from_epub epub_documents) file_data file_name in
  let accepted := endswith (lower file_name) (of_string ".pdf")
                  || endswith (lower file_name) (of_string ".epub") in
  let '(reply, db') :=
    handle_document_upload lower (extract_text_from_pdf pdf_pages)
      (extract_text_from_epub epub_documents) db telegram_id file_name
      file_data now in
  strip text = text /\
  match reply with
  | UnsupportedFormat => accepted = false /\ db' = db
  | EmptyExtraction => accepted = true /\ len text < 10 /\ db' = db
  | Saved document =>
      accepted = true /\ 10 <= len text /\
      Document.content document = text /\
      Document.current_position document = 0 /\
      In document (documents db')
  end.
Proof.
  cbv zeta.
  pose proof (extracted_text_is_stripped lower pdf_pages epub_documents
                file_data file_name) as Hstripped. cbv zeta in Hstripped.
  unfold handle_document_upload.
  destruct (endswith (lower file_name) (of_string ".pdf")
            || endswith (lower file_name) (of_string ".epub"));
    cbn [negb]; [|repeat split; exact Hstripped].
  set (text := extract_text_from_document lower
                 (extract_text_from_pdf pdf_pages)
                 (extract_text_from_epub epub_documents) file_data file_name)
    in *.
  clearbody text.
  assert (Hcheck : (len (strip text) <? 10) = (len text <? 10))
    by (rewrite Hstripped; reflexivity).
  rewrite Hcheck.
  destruct text as [|c text]; cbn [orb].
  - split; [exact Hstripped|]. repeat split.
  - destruct (Z.ltb_spec (len (c :: text)) 10).
    + split; [exact Hstripped|]. repeat split. assumption.
    + destruct (get_or_create_user db telegram_id None None None now)
        as [user db1].
      unfold save_document. split; [exact Hstripped|].
      repeat split; [assumption|].
      cbn [documents]. apply in_or_app. right. left. reflexivity.
Qed.

Lemma sub_whitespace_blank (text : str) :
  Forall (fun c => isspace c = true) text ->
  sub_whitespace true text = [] /\
  (sub_whitespace false text = [] \/ sub_whitespace false text = [space]).
Proof.
  induction 1 as [|c text Hc _ (IH1 & IH2)]; [split; [|left]; reflexivity|].
  cbn [sub_whitespace]. rewrite Hc, IH1. split; [reflexivity|right; reflexivity].
Qed.

Lemma pages_blank (pages : list str) : forall text : str,
  Forall (fun c => isspace c = true) text ->
  Forall (Forall (fun c => isspace c = true)) pages ->
  Forall (fun c => isspace c = true)
         (fold_left (fun text page => text ++ page ++ [newline]) pages text).
Proof.
  induction pages as [|page pages IH]; intros text Htext Hpages; [exact Htext|].
  inversion Hpages as [|? ? Hpage Hrest]; subst. cbn [fold_left].
  apply IH; [|exact Hrest].
  apply Forall_app. split; [exact Htext|].
  apply Forall_app. split; [exact Hpage|]. repeat constructor.
Qed.

(** X23: a PDF file without text.  When the library fails on the file, or
    finds nothing but whitespace on its pages, as for scanned images, the
    extracted text is empty and the upload is answered as a failed
    extraction, with the database as it was. *)
Theorem X23_pdf_without_text_is_refused
    (lower : str -> str)
    (pdf_pages : list Byte.byte -> option (list str))
    (extract_text_from_epub : list Byte.byte -> str)
    (db : Database) (telegram_id file_name : str)
    (file_data : list Byte.byte) (now : Z) :
  endswith (lower file_name) (of_string ".pdf") = true ->
  match pdf_pages file_data with
  | None => True
  | Some pages => Forall (Forall (fun c => isspace c = true)) pages
  end ->
  extract_text_from_pdf pdf_pages file_data = [] /\
  handle_document_upload lower (extract_text_from_pdf pdf_pages)
    extract_text_from_epub db telegram_id file_name file_data now
    = (EmptyExtraction, db).
Proof.
  intros Hpdf Hblank.
  assert (Hempty : extract_text_from_pdf pdf_pages file_data = []).
  { unfold extract_text_from_pdf.
    destruct (pdf_pages file_data) as [pages|]; [|reflexivity].
    destruct (sub_whitespace_blank _ (pages_blank pages [] (Forall_nil _) Hblank))
      as [_ [-> | ->]]; reflexivity. }
  split; [exact Hempty|].
  unfold handle_document_upload, extract_text_from_document.
  rewrite Hpdf, Hempty. reflexivity.
Qed.

Lemma X23_scanned_pdf_witness :
  handle_document_upload lower_of_lowercase
    (extract_text_from_pdf scanned_pages) five_characters
    one_reader (of_string "4711") (of_string "scan.pdf") [] 5
  = (EmptyExtraction, one_reader).
Proof.
  apply (X23_pdf_without_text_is_refused lower_of_lowercase scanned_pages
           five_characters one_reader (of_string "4711") (of_string "scan.pdf")
           [] 5 eq_refl).
  repeat constructor.
Defined.
